(** * KNTraP helper scripts: a shallow embedding and its properties

    The repository is a set of four stand-alone Python scripts:

    - [notes/KNTraP_download_ccdbyccd.py]: the CCD-by-CCD archive downloader
      (module [Downloader] below);
    - [query_catalog_pipe.py]: the photometric / astrometric catalogue query
      (module [CatalogPipe]);
    - [query_ls_datalab_kntrap.py] and [query_milliquasar.py]: the target-list
      drivers (module [TargetDrivers]).

    Conventions of the embedding.

    - Sky coordinates and radii are Python floats on which the code performs
      ordinary arithmetic, comparisons and [np.cos].  They are embedded as
      real numbers ([R]), i.e. float arithmetic is idealised as exact
      arithmetic; [np.pi] is [PI] and [np.cos] is [cos].  A bound that
      rounding can reach is stated closed, and the rounded computation
      that reaches it is given on binary64 values ([ra_min_binary64]).
    - Catalogue cells (magnitudes) are IEEE binary64 values with a
      not-a-number; they are embedded as Rocq's primitive floats, whose
      [is_nan] and [<] are the ones of the hardware.
    - Python exceptions, [print] and the HTTP / file-system effects are
      embedded in a state-and-exception monad whose state survives a raise,
      as the effects of a Python program do. *)

From Stdlib Require Import Reals Lra Lia ZArith List String Ascii Bool.
From Stdlib Require Import Floats DecimalString FinFun.
Import ListNotations.

(* ====================================================================== *)
(** * Python runtime pieces shared by the scripts *)
(* ====================================================================== *)

Module Py.

(** The exceptions the scripts can raise, tagged by their Python class. *)
Inductive exn : Type :=
| RuntimeError (msg : string)
| PyException (msg : string)
| KeyError (key : string)
| IndexError
| TypeError
| AttributeError (attr : string)
| UnboundLocalError (var : string)
| JSONDecodeError
| QueryClientError (msg : string)
| FileNotFoundError (path : string).

(** Outcome of running a statement: it returns or it raises. *)
Inductive result (A : Type) : Type :=
| Ok (a : A)
| Raise (e : exn).
Arguments Ok {A} a.
Arguments Raise {A} e.

(** A computation threads a state [S]; the state reached when an exception
    is raised is kept (what was printed, sent or written stays so). *)
Definition M (S A : Type) : Type := S -> result A * S.

Definition ret {S A} (a : A) : M S A := fun s => (Ok a, s).

Definition raise {S A} (e : exn) : M S A := fun s => (Raise e, s).

Definition bind {S A B} (m : M S A) (k : A -> M S B) : M S B :=
  fun s =>
    match m s with
    | (Ok a, s') => k a s'
    | (Raise e, s') => (Raise e, s')
    end.

Definition get {S} : M S S := fun s => (Ok s, s).
Definition modify {S} (f : S -> S) : M S unit := fun s => (Ok tt, f s).

(** Sequencing of pure partial operations. *)
Definition and_then {A B} (r : result A) (k : A -> result B) : result B :=
  match r with
  | Ok a => k a
  | Raise e => Raise e
  end.

(** Lift a pure partial operation. *)
Definition lift {S A} (r : result A) : M S A := fun s => (r, s).

(** [for x in xs: body x], stopping at the first exception. *)
Fixpoint for_each {S A} (xs : list A) (body : A -> M S unit) : M S unit :=
  match xs with
  | [] => ret tt
  | x :: xs' => bind (body x) (fun _ => for_each xs' body)
  end.

(** Python's [needle in haystack] on [str]. *)
Fixpoint str_in (needle haystack : string) : bool :=
  if String.prefix needle haystack then true
  else match haystack with
       | EmptyString => false
       | String _ rest => str_in needle rest
       end.

(** Python's [x in xs] on a list of strings. *)
Definition in_list (x : string) (xs : list string) : bool :=
  existsb (String.eqb x) xs.

(** [s[0]] as a one-character string. *)
Definition first_char (s : string) : result string :=
  match s with
  | EmptyString => Raise IndexError
  | String c _ => Ok (String c EmptyString)
  end.

(** [xs[i]] on a list, for a non-negative index. *)
Definition list_get {A} (xs : list A) (i : nat) : result A :=
  match nth_error xs i with
  | Some x => Ok x
  | None => Raise IndexError
  end.

(** [xs[-1]]. *)
Definition list_last {A} (xs : list A) : result A :=
  match rev xs with
  | x :: _ => Ok x
  | [] => Raise IndexError
  end.

(** [s.split(sep)] for a one-character separator: the pieces between the
    occurrences of [sep], never an empty list. *)
Fixpoint split_char (sep : ascii) (s : string) : list string :=
  match s with
  | EmptyString => [EmptyString]
  | String c rest =>
      if Ascii.eqb c sep then EmptyString :: split_char sep rest
      else match split_char sep rest with
           | piece :: pieces => String c piece :: pieces
           | [] => [String c EmptyString]
           end
  end.

(** [s.replace(c, '')] for a one-character [c]. *)
Fixpoint remove_char (c : ascii) (s : string) : string :=
  match s with
  | EmptyString => EmptyString
  | String d rest =>
      if Ascii.eqb d c then remove_char c rest
      else String d (remove_char c rest)
  end.

(** ['/'.join(pieces)]. *)
Definition join (sep : string) (pieces : list string) : string :=
  String.concat sep pieces.

(** [xs[0:-1]]: all but the last element. *)
Definition drop_last {A} (xs : list A) : list A := removelast xs.

(** [str(n)] for an integer. *)
Definition str_of_Z (n : Z) : string := NilZero.string_of_int (Z.to_int n).

(** JSON bodies, as deep as the scripts look into them: a string, or an
    object whose fields are strings. *)
Inductive json_value : Type :=
| JStr (s : string)
| JObj (fields : list (string * string)).

Fixpoint assoc {A} (k : string) (kvs : list (string * A)) : option A :=
  match kvs with
  | [] => None
  | (k', v) :: rest => if String.eqb k k' then Some v else assoc k rest
  end.

(** [value[key]] for a string [key]: indexing a [str] with a [str] is a
    [TypeError], a missing key of a [dict] a [KeyError]. *)
Definition json_item (value : json_value) (key : string) : result string :=
  match value with
  | JStr _ => Raise TypeError
  | JObj fields =>
      match assoc key fields with
      | Some v => Ok v
      | None => Raise (KeyError key)
      end
  end.

(** [c in s] for a character [c]. *)
Fixpoint has_char (c : ascii) (s : string) : bool :=
  match s with
  | EmptyString => false
  | String d rest => Ascii.eqb d c || has_char c rest
  end.

End Py.

Notation "x <- m ;; k" := (Py.bind m (fun x => k))
  (at level 61, m at next level, right associativity).
Notation "m ;;; k" := (Py.bind m (fun _ => k))
  (at level 61, right associativity).
Notation "x <~ r ;; k" := (Py.and_then r (fun x => k))
  (at level 61, r at next level, right associativity).

(* ====================================================================== *)
(** * The CCD-by-CCD downloader: [notes/KNTraP_download_ccdbyccd.py] *)
(* ====================================================================== *)

Module Downloader.
Import Py.
Local Open Scope R_scope.

(** ** Bounding box *)

(** The tuple [(ra_min, ra_max, dec_min, dec_max)] the function returns. *)
Record radec_box : Type := mk_box {
  ra_min : R;
  ra_max : R;
  dec_min : R;
  dec_max : R
}.

Definition Rltb (x y : R) : bool := if Rlt_dec x y then true else false.
Definition Rgtb (x y : R) : bool := if Rgt_dec x y then true else false.
Definition Reqb (x y : R) : bool := if Req_dec_T x y then true else false.

(** [min(np.cos(dec_min*np.pi/180.0), np.cos(dec_max*np.pi/180.0))] *)
Definition costerm (dmin dmax : R) : R :=
  Rmin (cos (dmin * PI / 180)) (cos (dmax * PI / 180)).

(** [get_radec_maxmin(RAcentre, DECcentre, search_radius_deg)]; the
    [debug] prints do not change the returned value and are left out. *)
Definition get_radec_maxmin (RAcentre DECcentre search_radius_deg : R)
  : radec_box :=
  let dmin := DECcentre - search_radius_deg in
  let dmax := DECcentre + search_radius_deg in
  let dmin := if Rltb dmin (-90) then -90 else dmin in
  let dmax := if Rgtb dmax 90 then 90 else dmax in
  if Reqb dmin (-90) || Reqb dmax 90 then
    mk_box 0 360 dmin dmax
  else
    let c := costerm dmin dmax in
    let rmin := RAcentre - search_radius_deg * 1 / c in
    let rmax := RAcentre + search_radius_deg * 1 / c in
    let rmin := if Rltb rmin 0 then rmin + 360 else rmin in
    let rmax := if Rgtb rmax 360 then rmax - 360 else rmax in
    mk_box rmin rmax dmin dmax.

(** "Clamped to [lo, hi]", for comparison with the bounds the function
    computes. *)
Definition clamp (lo hi x : R) : R := Rmax lo (Rmin hi x).

(** The wrap-around of the right ascensions, for comparison with the
    bounds the function computes: a value below 0 gets +360, a value
    above 360 gets -360. *)
Definition wrap_below (x : R) : R := if Rltb x 0 then x + 360 else x.
Definition wrap_above (x : R) : R := if Rgtb x 360 then x - 360 else x.

(** The statements that compute [ra_min] away from the poles, on binary64
    values as the machine has them, every operation rounded:
    [ra_min = RAcentre-search_radius_deg*1./costerm] and
    [if ra_min<0: ra_min+=360.0].  The value of [costerm] is an argument
    ([np.cos] is not modelled). *)
Definition ra_min_binary64 (RAcentre search_radius_deg costerm : float)
  : float :=
  let ra_min :=
    (RAcentre - search_radius_deg * 1 / costerm)%float in
  if (ra_min <? 0)%float then (ra_min + 360)%float else ra_min.

(** ** CCD ordinal to detector name *)

(** A key of [ccd_code_dic]: the table has every ordinal both as an [int]
    and as a [str]. *)
Inductive ccd_key : Type :=
| KInt (n : Z)
| KStr (s : string).

Definition ccd_key_eqb (a b : ccd_key) : bool :=
  match a, b with
  | KInt m, KInt n => Z.eqb m n
  | KStr s, KStr t => String.eqb s t
  | _, _ => false
  end.

(** [f'{ccd}'] *)
Definition ccd_key_str (k : ccd_key) : string :=
  match k with
  | KInt n => str_of_Z n
  | KStr s => s
  end.

(** The detector names of ordinals 1 to 62, in the order of the table. *)
Definition ccd_codes : list string :=
  ["S29"; "S30"; "S31"; "S25"; "S26"; "S27"; "S28"; "S20"; "S21"; "S22";
   "S23"; "S24"; "S14"; "S15"; "S16"; "S17"; "S18"; "S19"; "S8"; "S9";
   "S10"; "S11"; "S12"; "S13"; "S1"; "S2"; "S3"; "S4"; "S5"; "S6"; "S7";
   "N1"; "N2"; "N3"; "N4"; "N5"; "N6"; "N7"; "N8"; "N9"; "N10"; "N11";
   "N12"; "N13"; "N14"; "N15"; "N16"; "N17"; "N18"; "N19"; "N20"; "N21";
   "N22"; "N23"; "N24"; "N25"; "N26"; "N27"; "N28"; "N29"; "N30";
   "N31"]%string.

Fixpoint number_from (n : Z) (codes : list string)
  : list (ccd_key * string) :=
  match codes with
  | [] => []
  | code :: rest =>
      (KInt n, code) :: (KStr (str_of_Z n), code)
        :: number_from (n + 1) rest
  end.

(** [ccd_code_dic = {1:'S29', '1':'S29', 2:'S30', '2':'S30', ...}] *)
Definition ccd_code_dic : list (ccd_key * string) :=
  Eval cbv in number_from 1 ccd_codes.

(** [ccd_code_dic[ccd]] *)
Definition ccd_code_lookup (ccd : ccd_key) : result string :=
  match find (fun kv => ccd_key_eqb ccd (fst kv)) ccd_code_dic with
  | Some kv => Ok (snd kv)
  | None => Raise (KeyError (ccd_key_str ccd))
  end.

(** ** The archive request *)

(** An element of [jj['search']]: a two-element list [[key, value]] or a
    three-element list [[key, low, high]]. *)
Inductive search_term : Type :=
| Exact (key value : string)
| RangeNum (key : string) (low high : R)
| RangeStr (key low high : string).

Record query_json : Type := mk_query {
  outfields : list string;
  search : list search_term
}.

Definition jj_base : query_json :=
  mk_query
    ["md5sum"; "archive_filename"; "original_filename"; "proc_type";
     "prod_type"; "proposal"; "ra_center"; "dec_center"; "caldat"; "url";
     "filesize"; "ifilter"; "exposure"; "dateobs_min";
     "dateobs_max"]%string
    [Exact "instrument" "decam"; Exact "telescope" "ct4m";
     Exact "obs_type" "object"; Exact "proc_type" "stacked"].

(** A row of the field-centers file, as far as the script reads it. *)
Record field_center : Type := mk_center {
  field : string;
  ampl : ccd_key;
  RAdeg : R;
  DECdeg : R
}.

(** A row of the archive's answer, as far as the script reads it. *)
Record archive_row : Type := mk_row {
  md5sum : string;
  archive_filename : string;
  prod_type : string;
  url : string;
  caldat_of : string;
  ifilter : string
}.

(** A [requests] response: status, parsed JSON body when there is one,
    raw content. *)
Record response : Type := mk_response {
  status_code : Z;
  json_body : option json_value;
  content : string
}.

(** [r.json()] *)
Definition response_json (r : response) : result json_value :=
  match json_body r with
  | Some v => Ok v
  | None => Raise JSONDecodeError
  end.

(** The remote archive and the [requests] status table: what each request
    is answered with. *)
Record archive : Type := mk_archive {
  adv_search : query_json -> list archive_row;
  get_token : option string -> option string -> response;
  retrieve : string -> json_value -> response;
  status_codes : Z -> option (list string)
}.

(** What the run does to the outside world, oldest first. *)
Inductive event : Type :=
| SearchPost (jj : query_json)
| Makedirs (dir : string)
| TokenPost (email password : option string)
| FileGet (fileurl : string) (authorization : json_value)
| FileWrite (path : string) (body : string).

(** The state of a run: the events so far and the local variable [token]
    of [KNTraP_download_ccdbyccd] ([None] while it is unbound). *)
Record run_state : Type := mk_state {
  trace : list event;
  token : option json_value
}.

Definition init_state : run_state := mk_state [] None.

Definition emit (e : event) : M run_state unit :=
  modify (fun s => mk_state (trace s ++ [e]) (token s)).

Definition set_token (v : json_value) : M run_state unit :=
  modify (fun s => mk_state (trace s) (Some v)).

(** Reading the local [token]. *)
Definition read_token : M run_state json_value :=
  fun s => match token s with
           | Some v => (Ok v, s)
           | None => (Raise (UnboundLocalError "token"), s)
           end.

(** ** The run *)

(** The arguments of [KNTraP_download_ccdbyccd], with [pipedata_dir] the
    value read from the environment. *)
Record options : Type := mk_options {
  caldat : string;
  pointing_name : string;
  username : option string;
  pw : option string;
  search_radius_deg : R;
  file_string : string;
  prod_types : list string;
  debugmode : bool;
  do_not_download : bool;
  pipedata_dir : string
}.

Local Open Scope string_scope.

Definition natroot : string := "https://astroarchive.noirlab.edu".

(** [file_string_in_x(x, file_string)] *)
Definition file_string_in_x (x fstr : string) : bool :=
  if str_in fstr x then true else false.

(** [makedirs_(out_path)].  [os.makedirs] refuses the empty path, which
    is what [out_dir] is for a path without a slash and for a path whose
    only slash comes first; a directory that exists already is accepted
    ([exist_ok=True]).  What the file system itself can refuse (a missing
    permission, a file in the way) is not part of the model. *)
Definition makedirs_ (out_path : string) : M run_state unit :=
  let out_dir := join "/" (drop_last (split_char "/" out_path)) in
  if String.eqb out_dir "" then raise (FileNotFoundError out_dir)
  else emit (Makedirs out_dir).

(** The body of [if not do_not_download:], the authenticated download of
    one file to [out_path]. *)
Definition download_file (srv : archive) (opts : options)
    (row : archive_row) (out_path : string) : M run_state unit :=
  let fileID := md5sum row in
  let fileurl := natroot ++ "/api/retrieve/" ++ fileID in
  emit (TokenPost (username opts) (pw opts)) ;;;
  let r := get_token srv (username opts) (pw opts) in
  if Z.eqb (status_code r) 200 then
    tok <- lift (response_json r) ;;
    set_token tok ;;;
    emit (FileGet fileurl tok) ;;;
    let r2 := retrieve srv fileurl tok in
    if Z.eqb (status_code r2) 200 then
      emit (FileWrite out_path (content r2))
    else
      names <- lift (match status_codes srv (status_code r2) with
                     | Some names => Ok names
                     | None => Raise (KeyError (str_of_Z (status_code r2)))
                     end) ;;
      name <- lift (list_get names 0) ;;
      body <- lift (response_json r2) ;;
      message <- lift (json_item body "message") ;;
      raise (PyException
               ("Error getting file (" ++ name ++ "). " ++ message))
  else
    tok <- read_token ;;
    detail <- lift (json_item tok "detail") ;;
    raise (PyException ("Could got get authorization: " ++ detail)).

(** The path a product is saved under: the statements from
    [caldat_filename = ...] to [out_path = ...]. *)
Definition build_out_path (opts : options) (ccd : ccd_key)
    (row : archive_row) : result string :=
  let caldat_filename := remove_char "-" (caldat_of row) in
  band <~ list_get (split_char " " (ifilter row)) 0 ;;
  ccd_code <~ ccd_code_lookup ccd ;;
  base <~ list_last (split_char "/" (archive_filename row)) ;;
  prod_type_code <~ list_get (split_char "_" base) 3 ;;
  let out_file_name :=
    pointing_name opts ++ "." ++ caldat_filename ++ "_" ++ prod_type_code
      ++ "_" ++ band ++ "_" ++ file_string opts ++ "_" ++ ccd_code
      ++ ".fits.fz" in
  let raw_dir := pipedata_dir opts ++ "/raw/" in
  Ok (raw_dir ++ "/" ++ pointing_name opts ++ "/" ++ ccd_key_str ccd
        ++ "/" ++ out_file_name).

(** The body of [for index, row in ads_df_with_string.iterrows():]. *)
Definition process_row (srv : archive) (opts : options) (ccd : ccd_key)
    (row : archive_row) : M run_state unit :=
  if in_list (prod_type row) (prod_types opts) then
    out_path <- lift (build_out_path opts ccd row) ;;
    makedirs_ out_path ;;;
    if do_not_download opts then ret tt
    else download_file srv opts row out_path
  else ret tt.

(** The archive query of one CCD: the [if ra_min>ra_max: ... else: ...]
    statement.  It yields the rows of [ads_df]. *)
Definition query_archive (srv : archive) (opts : options) (box : radec_box)
  : M run_state (list archive_row) :=
  if Rgtb (ra_min box) (ra_max box) then
    raise (RuntimeError "This needs to be fixed!!")
  else
    let jj :=
      mk_query (outfields jj_base)
        (search jj_base
           ++ [RangeNum "ra_center" (ra_min box) (ra_max box);
               RangeNum "dec_center" (dec_min box) (dec_max box);
               RangeStr "caldat" (caldat opts) (caldat opts)]) in
    emit (SearchPost jj) ;;;
    ret (tl (adv_search srv jj)).

(** The body of [for ii in ccds_to_go_through:]. *)
Definition process_ccd (srv : archive) (opts : options)
    (selectedfield : list field_center) (ii : nat) : M run_state unit :=
  c <- lift (list_get selectedfield ii) ;;
  let ccd := ampl c in
  let box :=
    get_radec_maxmin (RAdeg c) (DECdeg c) (search_radius_deg opts) in
  ads_df <- query_archive srv opts box ;;
  (* a frame built from no row has no column 'archive_filename' *)
  (match ads_df with
   | [] => raise (KeyError "archive_filename")
   | _ :: _ => ret tt
   end) ;;;
  let ads_df_with_string :=
    filter (fun row => file_string_in_x (archive_filename row)
                         (file_string opts)) ads_df in
  for_each ads_df_with_string (process_row srv opts ccd).

(** [KNTraP_download_ccdbyccd(...)], from the parsed field-centers table
    on; the timer and the prints are left out. *)
Definition KNTraP_download_ccdbyccd (srv : archive) (opts : options)
    (field_centers : list field_center) : M run_state unit :=
  let selectedfield :=
    filter (fun c => String.eqb (field c) (pointing_name opts))
      field_centers in
  let ccds_to_go_through :=
    if debugmode opts then seq 0 2 else seq 0 (List.length selectedfield) in
  for_each ccds_to_go_through (process_ccd srv opts selectedfield).

(** ** What a run may send *)

(** An archive query as the run builds it from a box: the four fixed
    constraints, the two coordinate ranges and the night. *)
Definition query_of_box (opts : options) (box : radec_box) : query_json :=
  mk_query (outfields jj_base)
    (search jj_base
       ++ [RangeNum "ra_center" (ra_min box) (ra_max box);
           RangeNum "dec_center" (dec_min box) (dec_max box);
           RangeStr "caldat" (caldat opts) (caldat opts)]).

(** A query a run over the table [centers] may post: the query of the
    box of a field centre of the pointing, with an ordered range of right
    ascensions. *)
Definition sound_query (opts : options) (centers : list field_center)
    (jj : query_json) : Prop :=
  exists c,
    In c centers /\ field c = pointing_name opts
    /\ let box :=
         get_radec_maxmin (RAdeg c) (DECdeg c) (search_radius_deg opts) in
       jj = query_of_box opts box /\ (ra_min box <= ra_max box)%R.

(** The events a run with the options [opts] over the table [centers]
    may add to the trace: sound searches and directories always, the
    token request, the file request and the write only when downloading
    is on. *)
Definition allowed_event (opts : options) (centers : list field_center)
    (e : event) : Prop :=
  match e with
  | SearchPost jj => sound_query opts centers jj
  | Makedirs _ => True
  | TokenPost _ _ | FileGet _ _ | FileWrite _ _ =>
      do_not_download opts = false
  end.

(** [s'] continues [s] with events that all satisfy [P]. *)
Definition extends (P : event -> Prop) (s s' : run_state) : Prop :=
  exists evs, trace s' = (trace s ++ evs)%list /\ Forall P evs.

(** The directory [makedirs_] makes for a path. *)
Definition parent_dir (out_path : string) : string :=
  join "/" (drop_last (split_char "/" out_path)).

(** The rows of an archive answer that a run handles: the file name holds
    the file string and the product type is one of the wanted ones. *)
Definition selected_products (opts : options) (ads_df : list archive_row)
  : list archive_row :=
  List.filter
    (fun row => file_string_in_x (archive_filename row) (file_string opts)
                && in_list (prod_type row) (prod_types opts))
    ads_df.

(** What handling a product adds to the trace when nothing fails: the
    directory, and unless the run is a dry run the token request, the file
    request and the write of the answer. *)
Definition product_events (srv : archive) (opts : options) (ccd : ccd_key)
    (tok : json_value) (row : archive_row) : list event :=
  match build_out_path opts ccd row with
  | Raise _ => []
  | Ok out_path =>
      let fileurl := natroot ++ "/api/retrieve/" ++ md5sum row in
      Makedirs (parent_dir out_path)
        :: (if do_not_download opts then []
            else [TokenPost (username opts) (pw opts);
                  FileGet fileurl tok;
                  FileWrite out_path (content (retrieve srv fileurl tok))])
  end.

End Downloader.

(* ====================================================================== *)
(** * The catalogue query: [query_catalog_pipe.py] *)
(* ====================================================================== *)

Module CatalogPipe.
Import Py.
Local Open Scope string_scope.

(** ** Tables *)

(** An astropy table: its column names and its rows, every row holding
    one cell per column.  Cells are binary64 values; masks are not
    modelled. *)
Record table : Type := mk_table {
  colnames : list string;
  rows : list (list float)
}.

Fixpoint index_of (name : string) (names : list string) : option nat :=
  match names with
  | [] => None
  | n :: rest =>
      if String.eqb name n then Some 0%nat
      else option_map S (index_of name rest)
  end.

(** [row[name]] for a row of a table with columns [names]. *)
Definition row_item (names : list string) (row : list float)
    (name : string) : result float :=
  match index_of name names with
  | None => Raise (KeyError name)
  | Some i => list_get row i
  end.

(** [t[name]], the cells of one column. *)
Definition column (t : table) (name : string) : result (list float) :=
  match index_of name (colnames t) with
  | None => Raise (KeyError name)
  | Some i => Ok (map (fun row => nth i row nan) (rows t))
  end.

(** [t.rename_column(name, new_name)]: the column must exist and the new
    name must be free. *)
Definition rename_column (t : table) (name new_name : string)
  : result table :=
  if negb (in_list name (colnames t)) then Raise (KeyError name)
  else if String.eqb name new_name then Ok t
  else if in_list new_name (colnames t) then Raise (KeyError new_name)
  else Ok (mk_table
             (map (fun n => if String.eqb n name then new_name else n)
                (colnames t))
             (rows t)).

(** [[i for i in np.arange(len(mags)) if np.isnan(mags[i])]] *)
Definition nan_index (mags : list float) : list nat :=
  List.filter (fun i => is_nan (nth i mags nan))
    (seq 0 (List.length mags)).

(** Keep the elements whose position is not listed:
    [np.delete(xs, index)] and [t.remove_rows(index)]. *)
Fixpoint delete_at {A} (pos : nat) (xs : list A) (index : list nat)
  : list A :=
  match xs with
  | [] => []
  | x :: rest =>
      if existsb (Nat.eqb pos) index then delete_at (S pos) rest index
      else x :: delete_at (S pos) rest index
  end.

Definition remove_rows (t : table) (index : list nat) : table :=
  mk_table (colnames t) (delete_at 0 (rows t) index).

(** [t[mask]] for a boolean mask as long as the table. *)
Fixpoint select {A} (xs : list A) (mask : list bool) : list A :=
  match xs, mask with
  | x :: xs', b :: mask' =>
      if b then x :: select xs' mask' else select xs' mask'
  | _, _ => []
  end.

Definition select_rows (t : table) (mask : list bool) : table :=
  mk_table (colnames t) (select (rows t) mask).

(** ** The Vizier service *)

Record vizier_request : Type := mk_request {
  columns : list string;
  coords : R * R;
  width : R;
  height : R;
  req_catalog : string
}.

(** The [TableList] a query returns: tables keyed by catalogue ID. *)
Definition TableList : Type := list (string * table).

(** The service: what the [n]-th query of the run is answered with. *)
Definition vizier : Type := nat -> vizier_request -> TableList.

(** [t_result[key]] for a catalogue name [key]: [TableList.__getitem__]
    returns the table filed under a name it holds; a key that is neither
    an integer, a name it holds nor a slice is refused with a [TypeError]
    (not the [KeyError] of a [dict]). *)
Definition tables_item (t_result : TableList) (key : string)
  : result table :=
  match assoc key t_result with
  | Some t => Ok t
  | None => Raise TypeError
  end.

(** ** Output *)

(** What [print] shows.  Lines whose text holds a formatted float or a
    table keep their arguments instead of the text. *)
Inductive output : Type :=
| Print (text : string)
| PrintBright (bright_thresh : float) (field filt : string) (ccd : Z)
| PrintTable (t : table).

(** A line of a written catalogue: the header text, or the four cells
    [f"{l['ra']} {l['dec']} {l['mag']} {l['e_mag']}\n"] formats. *)
Inductive line : Type :=
| Header (text : string)
| Entry (ra dec mag e_mag : float).

(** The state of a run: what was printed, the queries sent so far, and
    the files of the output directory (latest first). *)
Record run_state : Type := mk_state {
  stdout : list output;
  queries : list vizier_request;
  files : list (string * list line)
}.

Definition print (o : output) : M run_state unit :=
  modify (fun s => mk_state (stdout s ++ [o])%list (queries s) (files s)).

(** [v.query_region(...)] *)
Definition query_region (srv : vizier) (req : vizier_request)
  : M run_state TableList :=
  fun s =>
    (Ok (srv (List.length (queries s)) req),
     mk_state (stdout s) (queries s ++ [req])%list (files s)).

(** [os.path.isfile(path)] *)
Definition isfile (path : string) : M run_state bool :=
  fun s => (Ok (existsb (fun f => String.eqb path (fst f)) (files s)), s).

(** [open(path, "w")]: the file exists and is empty from here on. *)
Definition open_w (path : string) : M run_state unit :=
  modify (fun s => mk_state (stdout s) (queries s) ((path, []) :: files s)).

(** [f.write(...)] on the file opened last. *)
Definition write_line (l : line) : M run_state unit :=
  modify (fun s =>
            match files s with
            | (path, ls) :: rest =>
                mk_state (stdout s) (queries s) ((path, (ls ++ [l])%list) :: rest)
            | [] => s
            end).

(** The content of [path], if it exists. *)
Definition read_file (s : run_state) (path : string)
  : option (list line) :=
  assoc path (files s).

(** ** The query classes *)

(** A [PhotoCatalog] object; [catID] is [None] while the attribute is
    not set. *)
Record PhotoCatalog : Type := mk_PhotoCatalog {
  field_ra : R;
  field_dec : R;
  boxsize : R;
  catalog : string;
  filter_band : string;
  catID : option string
}.

(** [PhotoCatalog.__init__(self, field_center, field_size, catname, fil)] *)
Definition PhotoCatalog_init (field_center : R * R) (field_size : R)
    (catname fil : string) : M run_state PhotoCatalog :=
  let self :=
    mk_PhotoCatalog (fst field_center) (snd field_center) field_size
      catname fil in
  if str_in "gaia" catname || str_in "Gaia" catname then
    ret (self (Some "I/345/gaia2"))
  else if str_in "ps1" catname || str_in "PS1" catname
          || str_in "Pan" catname then
    ret (self (Some "II/349/ps1"))
  else if str_in "apass" catname || str_in "APASS" catname then
    ret (self (Some "II/336/apass9"))
  else if str_in "skymapper" catname || str_in "SM" catname
          || str_in "SkyMapper" catname then
    ret (self (Some "II/358/smss"))
  else
    print (Print "Catalog name not recognized! Available catalogs:") ;;;
    print (Print "Gaia, APASS, PS1") ;;;
    ret (self None).

(** "Substring-matching against known aliases": [needle] occurs in
    [haystack]. *)
Definition Substring (needle haystack : string) : Prop :=
  exists before after, haystack = before ++ needle ++ after.

(** The known aliases with the catalogue ID each group stands for, in the
    order in which they are tried. *)
Definition known_aliases : list (list string * string) :=
  [(["gaia"; "Gaia"], "I/345/gaia2");
   (["ps1"; "PS1"; "Pan"], "II/349/ps1");
   (["apass"; "APASS"], "II/336/apass9");
   (["skymapper"; "SM"; "SkyMapper"], "II/358/smss")].

(** The ID of the first group one of whose aliases occurs in [catname]. *)
Definition resolve_alias (catname : string) : option string :=
  option_map snd
    (find (fun group => existsb (fun alias => str_in alias catname)
                          (fst group))
       known_aliases).

(** The [columns_select] of [PhotoCatalog.query]. *)
Definition columns_select (self : PhotoCatalog) : result (list string) :=
  match catID self with
  | None => Raise (AttributeError "catID")
  | Some id =>
      let fil := filter_band self in
      if String.eqb id "I/345/gaia2" then
        Ok ["Source"; "RA_ICRS"; "e_RA_ICRS"; "DE_ICRS"; "e_DE_ICRS";
            "Gmag"; "e_Gmag"]
      else if String.eqb id "II/349/ps1" then
        Ok (List.app ["objID"; "RAJ2000"; "DEJ2000"]
              (if String.eqb fil "all" then
                    ["gmag"; "e_gmag"; "rmag"; "e_rmag"; "imag"; "e_imag";
                     "zmag"; "e_zmag"; "ymag"; "e_ymag"]
                  else [fil ++ "mag"; "e_" ++ fil ++ "mag"]))
      else if String.eqb id "II/358/smss" then
        Ok (List.app ["ObjectId"; "RAICRS"; "DEICRS"]
              (if String.eqb fil "all" then
                    ["uPSF"; "e_uPSF"; "vPSF"; "e_vPSF"; "gPSF"; "e_gPSF";
                     "rPSF"; "e_rPSF"; "iPSF"; "e_iPSF"; "zPSF"; "e_zPSF"]
                  else [fil ++ "PSF"; "e_" ++ fil ++ "PSF"]))
      else if String.eqb id "II/336/apass9" then
        Ok (List.app ["RAJ2000"; "DEJ2000"]
              (if String.eqb fil "all" then
                    ["Vmag"; "e_Vmag"; "Bmag"; "e_Bmag"; "g'mag"; "e_g'mag";
                     "r'mag"; "e_r'mag"; "i'mag"; "e_i'mag"]
                  else [fil ++ "mag"; "e_" ++ fil ++ "mag"]))
      else Raise (UnboundLocalError "columns_select")
  end.

(** [PhotoCatalog.query(self)]: a table, or [None]. *)
Definition query (srv : vizier) (self : PhotoCatalog)
  : M run_state (option table) :=
  cols <- lift (columns_select self) ;;
  id <- lift (match catID self with
              | Some id => Ok id
              | None => Raise (AttributeError "catID")
              end) ;;
  t_result <- query_region srv
                (mk_request cols (field_ra self, field_dec self)
                   (boxsize self) (boxsize self) id) ;;
  if Nat.eqb (List.length t_result) 0 then ret None
  else
    t <- lift (tables_item t_result id) ;;
    ret (Some t).

(** A [GaiaAstrometry] object. *)
Record GaiaAstrometry : Type := mk_GaiaAstrometry {
  gaia_field_ra : R;
  gaia_field_dec : R;
  gaia_boxsize : R;
  gaia_catID : string
}.

(** [GaiaAstrometry.__init__(self, field_center, field_size)] *)
Definition GaiaAstrometry_init (field_center : R * R) (field_size : R)
  : GaiaAstrometry :=
  mk_GaiaAstrometry (fst field_center) (snd field_center) field_size
    "I/345/gaia2".

(** [GaiaAstrometry.query_gaia_astrom(self)]: a table, or [None]. *)
Definition query_gaia_astrom (srv : vizier) (self : GaiaAstrometry)
  : M run_state (option table) :=
  let cols := ["RA_ICRS"; "e_RA_ICRS"; "DE_ICRS"; "e_DE_ICRS"; "Source";
               "Gmag"; "e_Gmag"; "Plx"] in
  t_result <- query_region srv
                (mk_request cols (gaia_field_ra self, gaia_field_dec self)
                   (gaia_boxsize self) (gaia_boxsize self)
                   (gaia_catID self)) ;;
  t <- lift (tables_item t_result (gaia_catID self)) ;;
  if Nat.eqb (List.length (rows t)) 0 then ret None
  else ret (Some t).

(** The request [PhotoCatalog.query] sends. *)
Definition photo_request (self : PhotoCatalog) (cols : list string)
    (id : string) : vizier_request :=
  mk_request cols (field_ra self, field_dec self) (boxsize self)
    (boxsize self) id.

(** The request [GaiaAstrometry.query_gaia_astrom] sends. *)
Definition gaia_request (self : GaiaAstrometry) : vizier_request :=
  mk_request
    ["RA_ICRS"; "e_RA_ICRS"; "DE_ICRS"; "e_DE_ICRS"; "Source"; "Gmag";
     "e_Gmag"; "Plx"]
    (gaia_field_ra self, gaia_field_dec self) (gaia_boxsize self)
    (gaia_boxsize self) (gaia_catID self).

(** ** Writing a catalogue *)

Definition newline : string := String (ascii_of_nat 10) EmptyString.

Definition str_of_nat (n : nat) : string := str_of_Z (Z.of_nat n).

Definition catalog_path (pathdir fieldname filt : string) (ccd : Z)
    (catname : string) : string :=
  pathdir ++ "/" ++ fieldname ++ "_" ++ filt ++ "_" ++ str_of_Z ccd ++ "_"
    ++ catname ++ "_phot.cat".

(** The body of [for l in t:] in [write_file]. *)
Definition write_row (names : list string) (l : list float)
  : M run_state unit :=
  ra <- lift (row_item names l "ra") ;;
  dec <- lift (row_item names l "dec") ;;
  mag <- lift (row_item names l "mag") ;;
  e_mag <- lift (row_item names l "e_mag") ;;
  write_line (Entry ra dec mag e_mag).

(** [write_file(t, pathdir, fieldname, filt, ccd, catname)] *)
Definition write_file (t : table) (pathdir fieldname filt : string)
    (ccd : Z) (catname : string) : M run_state unit :=
  let outfile := catalog_path pathdir fieldname filt ccd catname in
  open_w outfile ;;;
  f0 <- lift (first_char filt) ;;
  write_line (Header ("#         ra         dec       " ++ f0
                        ++ "      d" ++ f0 ++ newline)) ;;;
  for_each (rows t) (write_row (colnames t)).

(** ** The driver *)

(** The parsed command line. *)
Record arguments : Type := mk_arguments {
  catname : string;
  pathdir : string;
  field_size : R;
  bright_thresh : float;
  clobber : bool;
  verbose : bool
}.

(** A row of the field-centers table. *)
Record center : Type := mk_center {
  field : string;
  ampl : Z;
  RAdeg : R;
  DECdeg : R
}.

(** "Make the table column names standard": the two [if] statements
    that rename the columns of [t_cat]. *)
Definition standard_columns (catname fil : string) (t_cat : table)
  : result table :=
  t_cat <~ (if String.eqb catname "APASS" || str_in "ps1" catname
               || str_in "PS1" catname || str_in "Pan" catname then
              t1 <~ rename_column t_cat "RAJ2000" "ra" ;;
              t2 <~ rename_column t1 "DEJ2000" "dec" ;;
              f0 <~ first_char fil ;;
              t3 <~ rename_column t2 (f0 ++ "_mag") "mag" ;;
              rename_column t3 ("e_" ++ f0 ++ "_mag") "e_mag"
            else Ok t_cat) ;;
  if str_in "SM" catname || str_in "skymapper" catname
     || str_in "SkyMapper" catname then
    t1 <~ rename_column t_cat "RAICRS" "ra" ;;
    t2 <~ rename_column t1 "DEICRS" "dec" ;;
    t3 <~ rename_column t2 (fil ++ "PSF") "mag" ;;
    rename_column t3 ("e_" ++ fil ++ "PSF") "e_mag"
  else Ok t_cat.

(** From [t_cat["mag"].fill_value = 99] to
    [t_cat = t_cat[(t_cat['mag'] < 30)]]: drop the not-a-number
    magnitudes, report the bright objects, keep the magnitudes below 30. *)
Definition select_magnitudes (args : arguments) (c : center)
    (fil : string) (t_cat : table) : M run_state table :=
  mags <- lift (column t_cat "mag") ;;
  let nan_idx := nan_index mags in
  let mags := delete_at 0 mags nan_idx in
  let t_cat := remove_rows t_cat nan_idx in
  (if existsb (fun m => PrimFloat.ltb m (bright_thresh args)) mags then
     col <- lift (column t_cat "mag") ;;
     let t_bright :=
       select_rows t_cat
         (map (fun m => PrimFloat.ltb m (bright_thresh args)) col) in
     f0 <- lift (first_char fil) ;;
     print (PrintBright (bright_thresh args) (field c) f0 (ampl c)) ;;;
     print (PrintTable t_bright)
   else ret tt) ;;;
  col <- lift (column t_cat "mag") ;;
  ret (select_rows t_cat (map (fun m => PrimFloat.ltb m 30%float) col)).

(** The magnitudes the filtering is meant to keep: a row is removed when
    its magnitude is not a number, and when it is 30 or more. *)
Definition kept_magnitude (m : float) : bool :=
  negb (is_nan m) && negb (PrimFloat.leb 30 m).

(** A table is well formed when every row has one cell per column. *)
Definition well_formed (t : table) : Prop :=
  Forall (fun row => List.length row = List.length (colnames t)) (rows t).

(** [cat.query()] with the one explicit second try of the driver: the
    table to work on, or [None] when the field is to be skipped. *)
Definition query_twice (srv : vizier) (args : arguments) (c : center)
    (cat : PhotoCatalog) : M run_state (option table) :=
  t_cat <- query srv cat ;;
  match t_cat with
  | Some t => ret (Some t)
  | None =>
      print (Print ("Watch out! No " ++ catname args ++ " for field "
                      ++ field c ++ ", CCD " ++ str_of_Z (ampl c)
                      ++ "? Trying again...")) ;;;
      t_cat <- query srv cat ;;
      match t_cat with
      | Some t => ret (Some t)
      | None => print (Print "...No hope, sorry.") ;;; ret None
      end
  end.

(** The body of [for fil in ['g', 'i']:]. *)
Definition process_filter (srv : vizier) (args : arguments) (c : center)
    (fil : string) : M run_state unit :=
  let ra := RAdeg c in
  let dec := DECdeg c in
  let fil := if String.eqb (catname args) "APASS" then fil ++ "'"
             else fil in
  exists_already <-
    (if negb (clobber args) then
       f0 <- lift (first_char fil) ;;
       isfile (catalog_path (pathdir args) (field c) f0 (ampl c)
                 (catname args))
     else ret false) ;;
  if exists_already then ret tt
  else
    cat <- PhotoCatalog_init (ra, dec) (field_size args) (catname args)
             fil ;;
    t_cat <- query_twice srv args c cat ;;
    match t_cat with
    | None => ret tt
    | Some t_cat =>
        t_cat <- lift (standard_columns (catname args) fil t_cat) ;;
        t_cat <- select_magnitudes args c fil t_cat ;;
        f0 <- lift (first_char fil) ;;
        write_file t_cat (pathdir args) (field c) f0 (ampl c)
          (catname args) ;;;
        if verbose args then
          print (Print ("Found " ++ str_of_nat (List.length (rows t_cat))
                          ++ " sources for field " ++ field c
                          ++ ", filter " ++ f0 ++ ", ccd "
                          ++ str_of_Z (ampl c)))
        else ret tt
    end.

(** The main loop, from the parsed field-centers table on. *)
Definition main (srv : vizier) (args : arguments) (t_centers : list center)
  : M run_state unit :=
  for_each t_centers
    (fun c => for_each ["g"; "i"] (process_filter srv args c)).

End CatalogPipe.

(* ====================================================================== *)
(** * The target-list drivers: [query_ls_datalab_kntrap.py] and
    [query_milliquasar.py] *)
(* ====================================================================== *)

Module TargetDrivers.
Import Py.
Local Open Scope string_scope.

(** A row of [kntrap-target-list.csv], as far as the drivers read it. *)
Record target : Type := mk_target {
  objectName : string;
  ra : R;
  dec : R
}.

(** A cone search: catalogue, centre and radius in degrees. *)
Record cone_request : Type := mk_cone {
  cone_catalog : string;
  cone_ra : R;
  cone_dec : R;
  cone_radius : R
}.

(** The remote services.  Data Lab answers the [n]-th query with the CSV
    text or with an error; Vizier answers with a list of tables, given
    here by their CSV text. *)
Record services : Type := mk_services {
  qc_query : nat -> cone_request -> result string;
  vizier_query_region : nat -> cone_request -> list string
}.

(** What a run does, oldest first. *)
Inductive event : Type :=
| Printed (text : string)
| Requested (req : cone_request)
| Wrote (outfile : string) (text : string).

Definition run_state : Type := list event.

Definition emit (e : event) : M run_state unit :=
  modify (fun s => (s ++ [e])%list).

Definition is_request (e : event) : bool :=
  match e with
  | Requested _ => true
  | _ => false
  end.

(** The number of requests sent so far. *)
Definition requests_sent (s : run_state) : nat :=
  List.length (List.filter is_request s).

(** [radius_deg = 1.2], and its text in an f-string. *)
Definition radius_deg : R := (12 / 10)%R.
Definition radius_deg_str : string := "1.2".

(** [query_coords_ls(ra, dec, radius_deg, catalog, outfile)]: the SQL cone
    query of [{catalog}.tractor], written to [outfile]. *)
Definition query_coords_ls (srv : services) (ra dec radius_deg : R)
    (catalog outfile : string) : M run_state unit :=
  let req := mk_cone catalog ra dec radius_deg in
  n <- (fun s => (Ok (requests_sent s), s)) ;;
  emit (Requested req) ;;;
  query <- lift (qc_query srv n req) ;;
  emit (Wrote outfile query).

(** [query_vizier(ra, dec, catalog, rad_deg, outfile)] *)
Definition query_vizier (srv : services) (ra dec : R) (catalog : string)
    (rad_deg : R) (outfile : string) : M run_state unit :=
  let req := mk_cone catalog ra dec rad_deg in
  n <- (fun s => (Ok (requests_sent s), s)) ;;
  emit (Requested req) ;;;
  let result := vizier_query_region srv n req in
  first <- lift (list_get result 0) ;;
  emit (Wrote outfile first).

(** The output file names of the two drivers. *)
Definition outfile_ls (name : string) : string :=
  "ls/" ++ name ++ "_ls_query_rad" ++ radius_deg_str ++ ".csv".

Definition outfile_milliquas (name : string) : string :=
  "milliquas/" ++ name ++ "_milliquas_query_rad" ++ radius_deg_str
    ++ ".csv".

(** [f"Querying {t_field['objectName']}"] *)
Definition querying (name : string) : string := "Querying " ++ name.

(** What the two loops do with a row that is not skipped. *)
Definition step_ls (srv : services) (t_field : target)
  : M run_state unit :=
  emit (Printed (querying (objectName t_field))) ;;;
  let outfile := outfile_ls (objectName t_field) in
  query_coords_ls srv (ra t_field) (dec t_field) radius_deg "ls_dr10"
    outfile.

Definition step_milliquas (srv : services) (t_field : target)
  : M run_state unit :=
  emit (Printed (querying (objectName t_field))) ;;;
  let outfile := outfile_milliquas (objectName t_field) in
  query_vizier srv (ra t_field) (dec t_field) "VII/294" radius_deg
    outfile.

(** [for t_field in t:] with the list [done] of the names handled so
    far, which both drivers share word for word. *)
Fixpoint iterate (step : target -> M run_state unit) (done : list string)
    (t : list target) : M run_state unit :=
  match t with
  | [] => ret tt
  | t_field :: rest =>
      if in_list (objectName t_field) done then iterate step done rest
      else
        step t_field ;;;
        iterate step (done ++ [objectName t_field])%list rest
  end.

(** The main blocks, from the parsed target list on. *)
Definition main_ls (srv : services) (t : list target) : M run_state unit :=
  iterate (step_ls srv) [] t.

Definition main_milliquas (srv : services) (t : list target)
  : M run_state unit :=
  iterate (step_milliquas srv) [] t.

(** The rows of a target list whose name does not occur in an earlier
    row ([earlier] holds the names of the rows before [t]). *)
Fixpoint first_rows_from (earlier : list string) (t : list target)
  : list target :=
  match t with
  | [] => []
  | r :: rest =>
      if in_list (objectName r) earlier then
        first_rows_from (earlier ++ [objectName r])%list rest
      else r :: first_rows_from (earlier ++ [objectName r])%list rest
  end.

Definition first_rows (t : list target) : list target :=
  first_rows_from [] t.

(** The texts printed and the files written, oldest first. *)
Definition printed (s : run_state) : list string :=
  flat_map (fun e => match e with Printed x => [x] | _ => [] end) s.

Definition written (s : run_state) : list string :=
  flat_map (fun e => match e with Wrote f _ => [f] | _ => [] end) s.

(** The requests the two drivers send for a row. *)
Definition ls_request (r : target) : cone_request :=
  mk_cone "ls_dr10" (ra r) (dec r) radius_deg.

Definition milliquas_request (r : target) : cone_request :=
  mk_cone "VII/294" (ra r) (dec r) radius_deg.

(** What a run without failure leaves in the trace for the rows it
    handles, the first of them sending request number [n]: per row the
    announcement, the request and the file with the [n]-th answer. *)
Fixpoint expected_events (request : target -> cone_request)
    (outfile : string -> string) (answer : nat -> cone_request -> string)
    (n : nat) (handled : list target) : list event :=
  match handled with
  | [] => []
  | r :: rest =>
      Printed (querying (objectName r))
        :: Requested (request r)
        :: Wrote (outfile (objectName r)) (answer n (request r))
        :: expected_events request outfile answer (S n) rest
  end.

(** The text Data Lab answers with, and the first table of Vizier's
    answer (the empty text where there is none). *)
Definition ls_answer (srv : services) (n : nat) (req : cone_request)
  : string :=
  match qc_query srv n req with
  | Ok text => text
  | Raise _ => ""
  end.

Definition milliquas_answer (srv : services) (n : nat) (req : cone_request)
  : string :=
  match vizier_query_region srv n req with
  | first :: _ => first
  | [] => ""
  end.

End TargetDrivers.

(* ====================================================================== *)
(** * Concrete runs used below *)
(* ====================================================================== *)

Module Scenarios.
Import Py.
Local Open Scope string_scope.

(** An archive that refuses the credentials: the token request is answered
    with status 401 and a JSON body holding the server's [detail]. *)
Definition refusing_archive : Downloader.archive :=
  Downloader.mk_archive
    (fun _ => [])
    (fun _ _ =>
       Downloader.mk_response 401
         (Some (JObj [("detail", "Invalid credentials")])) "")
    (fun _ _ => Downloader.mk_response 200 None "FITS")
    (fun _ => None).

(** An archive that grants the token and does not find the file: the
    file request is answered with status 404 and a JSON [message]. *)
Definition forgetful_archive : Downloader.archive :=
  Downloader.mk_archive
    (fun _ => [])
    (fun _ _ => Downloader.mk_response 200 (Some (JStr "token-123")) "")
    (fun _ _ =>
       Downloader.mk_response 404
         (Some (JObj [("message", "No such file in the archive")])) "")
    (fun code => if Z.eqb code 404 then Some ["not_found"; "-o-"] else None).

(** An archive that grants the token and serves the file. *)
Definition granting_archive : Downloader.archive :=
  Downloader.mk_archive
    (fun _ => [])
    (fun _ _ => Downloader.mk_response 200 (Some (JStr "token-123")) "")
    (fun _ _ => Downloader.mk_response 200 None "FITS bytes")
    (fun _ => None).

(** The run of the usage example: one night of pointing S82sub8. *)
Definition example_options : Downloader.options :=
  Downloader.mk_options "2021-06-05" "S82sub8" (Some "user") (Some "pw")
    (1 / 100)%R "kfttest" ["image1"; "wtmap"; "dqmask"] false false
    "/data".

(** A stacked image of CCD 1 as the archive lists it. *)
Definition example_row : Downloader.archive_row :=
  Downloader.mk_row "0123abcd"
    "/net/archive/pipe/20210605/ct4m/c4d_210605_kfttest_image1_S29.fits.fz"
    "image1" "https://astroarchive.noirlab.edu/api/retrieve/0123abcd"
    "2021-06-05" "g DECam SDSS c0001 4720.0 1520.0".

Definition example_out_path : string :=
  "/data/raw//S82sub8/1/S82sub8.20210605_image1_g_kfttest_S29.fits.fz".

(** An archive that lists, after the leading row, the stacked image of
    the example, an exposure map of the same stack and an image of another
    reduction, and that grants every request. *)
Definition listing_archive : Downloader.archive :=
  Downloader.mk_archive
    (fun _ =>
       [Downloader.mk_row "" "" "" "" "" "";
        example_row;
        Downloader.mk_row "4567cdef"
          "/net/archive/pipe/20210605/ct4m/c4d_210605_kfttest_expmap_S29.fits.fz"
          "expmap" "https://astroarchive.noirlab.edu/api/retrieve/4567cdef"
          "2021-06-05" "g DECam SDSS c0001 4720.0 1520.0";
        Downloader.mk_row "89ab0123"
          "/net/archive/pipe/20210605/ct4m/c4d_210605_v1_image1_S29.fits.fz"
          "image1" "https://astroarchive.noirlab.edu/api/retrieve/89ab0123"
          "2021-06-05" "g DECam SDSS c0001 4720.0 1520.0"])
    (fun _ _ => Downloader.mk_response 200 (Some (JStr "token-123")) "")
    (fun _ _ => Downloader.mk_response 200 None "FITS bytes")
    (fun _ => None).

(** The same run as a dry run. *)
Definition dry_options : Downloader.options :=
  Downloader.mk_options "2021-06-05" "S82sub8" (Some "user") (Some "pw")
    (1 / 100)%R "kfttest" ["image1"; "wtmap"; "dqmask"] false true
    "/data".

(** Two CCDs of the pointing S82sub8 centred on the north pole, and one
    of another pointing. *)
Definition polar_centers : list Downloader.field_center :=
  [Downloader.mk_center "S82sub8" (Downloader.KInt 1) 10 90;
   Downloader.mk_center "S82sub8" (Downloader.KInt 2) 11 90;
   Downloader.mk_center "353A" (Downloader.KInt 1) 200 (-45)]%R.

(** A Gaia table as [PhotoCatalog.query] asks for it. *)
Definition example_gaia_table : CatalogPipe.table :=
  CatalogPipe.mk_table
    ["Source"; "RA_ICRS"; "e_RA_ICRS"; "DE_ICRS"; "e_DE_ICRS"; "Gmag";
     "e_Gmag"]
    [[1; 10.5; 0.125; -30.25; 0.125; 17.5; 0.0625]%float].

(** A SkyMapper table as [PhotoCatalog.query] asks for it in the band g:
    a good row, a row without a magnitude, a row with a magnitude of 31. *)
Definition example_skymapper_table : CatalogPipe.table :=
  CatalogPipe.mk_table ["ObjectId"; "RAICRS"; "DEICRS"; "gPSF"; "e_gPSF"]
    [[1; 10.5; -30.25; 17.5; 0.125]%float;
     [2; 10.75; -30.5; nan; 0.5]%float;
     [3; 11.25; -30.75; 31; 0.25]%float].

(** A table in the standard column names: a good row, a row without a
    magnitude, a row with a magnitude of 31, and another good row. *)
Definition example_standard_table : CatalogPipe.table :=
  CatalogPipe.mk_table ["ra"; "dec"; "mag"; "e_mag"]
    [[10.5; -30.25; 17.5; 0.125]%float;
     [10.75; -30.5; nan; 0.5]%float;
     [11.25; -30.75; 31; 0.25]%float;
     [11.5; -31; 21.25; 0.0625]%float].

Definition example_arguments : CatalogPipe.arguments :=
  CatalogPipe.mk_arguments "PS1" "catalogs_photometry" 18%R 5%float false
    false.

Definition example_center : CatalogPipe.center :=
  CatalogPipe.mk_center "S82sub8" 1 (15 / 2)%R (-30)%R.

Definition empty_run : CatalogPipe.run_state :=
  CatalogPipe.mk_state [] [] [].

(** Three rows of a target list, two of them for the same object. *)
Definition example_targets : list TargetDrivers.target :=
  [TargetDrivers.mk_target "GW190814" 12 (-25);
   TargetDrivers.mk_target "S200224ca" 175 (-9);
   TargetDrivers.mk_target "GW190814" 13 (-24)]%R.

(** Services that always answer. *)
Definition answering_services : TargetDrivers.services :=
  TargetDrivers.mk_services (fun _ _ => Ok "objid,ra,dec")
    (fun _ _ => ["recno,RAJ2000,DEJ2000"]).

(** Services that answer the first query of a run and no later one. *)
Definition tiring_services : TargetDrivers.services :=
  TargetDrivers.mk_services
    (fun n _ => if Nat.eqb n 0 then Ok "objid,ra,dec"
                else Raise (QueryClientError "no such table"))
    (fun n _ => if Nat.eqb n 0 then ["recno,RAJ2000,DEJ2000"] else []).

End Scenarios.

(* ====================================================================== *)
(** * Properties of the bounding box *)
(* ====================================================================== *)

Module BoundingBox.
Import Py Downloader.
Local Open Scope R_scope.

Lemma Rltb_true x y : Rltb x y = true <-> x < y.
Proof. unfold Rltb; destruct (Rlt_dec x y); split; (lra || congruence). Qed.

Lemma Rgtb_true x y : Rgtb x y = true <-> x > y.
Proof. unfold Rgtb; destruct (Rgt_dec x y); split; (lra || congruence). Qed.

Lemma Reqb_true x y : Reqb x y = true <-> x = y.
Proof.
  unfold Reqb; destruct (Req_dec_T x y); split; (lra || congruence).
Qed.

(** Decide every comparison in sight and leave linear arithmetic. *)
Ltac decide_R :=
  unfold Rltb, Rgtb, Reqb in *;
  repeat match goal with
    | |- context [Rlt_dec ?a ?b] => destruct (Rlt_dec a b)
    | |- context [Rgt_dec ?a ?b] => destruct (Rgt_dec a b)
    | |- context [Req_dec_T ?a ?b] => destruct (Req_dec_T a b)
    end;
  cbn [orb ra_min ra_max dec_min dec_max].

(** The declination bounds do not depend on the branch taken for the
    right ascension. *)
Lemma dec_min_eq RA DEC r :
  dec_min (get_radec_maxmin RA DEC r)
  = if Rltb (DEC - r) (-90) then -90 else DEC - r.
Proof. unfold get_radec_maxmin; decide_R; reflexivity. Qed.

Lemma dec_max_eq RA DEC r :
  dec_max (get_radec_maxmin RA DEC r)
  = if Rgtb (DEC + r) 90 then 90 else DEC + r.
Proof. unfold get_radec_maxmin; decide_R; reflexivity. Qed.

(** A box that touches a pole spans all right ascensions. *)
Lemma polar_box RA DEC r :
  DEC - r <= -90 \/ DEC + r >= 90 ->
  ra_min (get_radec_maxmin RA DEC r) = 0
  /\ ra_max (get_radec_maxmin RA DEC r) = 360.
Proof.
  intros H. unfold get_radec_maxmin. decide_R; split; lra.
Qed.

(** Away from the poles the bounds are the wrapped [RA -/+ r/costerm]. *)
Lemma nonpolar_box RA DEC r :
  DEC - r > -90 -> DEC + r < 90 ->
  ra_min (get_radec_maxmin RA DEC r)
  = wrap_below (RA - r / costerm (DEC - r) (DEC + r))
  /\ ra_max (get_radec_maxmin RA DEC r)
     = wrap_above (RA + r / costerm (DEC - r) (DEC + r)).
Proof.
  intros Hlo Hhi. unfold get_radec_maxmin, wrap_below, wrap_above.
  replace (r * 1 / costerm (DEC - r) (DEC + r))
    with (r / costerm (DEC - r) (DEC + r)) by (unfold Rdiv; ring).
  decide_R; split; lra.
Qed.

(** Cosines of angles given in degrees. *)
Lemma cos_deg_pos d : -90 < d < 90 -> 0 < cos (d * PI / 180).
Proof.
  intros [Hlo Hhi]. pose proof PI_RGT_0 as Hpi.
  apply cos_gt_0; nra.
Qed.

Lemma cos_deg_le_1 d : cos (d * PI / 180) <= 1.
Proof. apply COS_bound. Qed.

Lemma cos_deg_half d : -60 < d < 60 -> 1 / 2 < cos (d * PI / 180).
Proof.
  intros [Hlo Hhi]. pose proof PI_RGT_0 as Hpi.
  rewrite <- cos_PI3.
  destruct (Rle_dec 0 d) as [Hd | Hd].
  - apply cos_decreasing_1; nra.
  - rewrite <- (cos_neg (d * PI / 180)).
    apply cos_decreasing_1; nra.
Qed.

Lemma costerm_pos dmin dmax :
  -90 < dmin < 90 -> -90 < dmax < 90 -> 0 < costerm dmin dmax.
Proof.
  intros H1 H2. unfold costerm.
  apply Rmin_glb_lt; apply cos_deg_pos; assumption.
Qed.

Lemma costerm_le_1 dmin dmax : costerm dmin dmax <= 1.
Proof.
  unfold costerm.
  eapply Rle_trans; [apply Rmin_l | apply cos_deg_le_1].
Qed.

Lemma costerm_half dmin dmax :
  -60 < dmin < 60 -> -60 < dmax < 60 -> 1 / 2 < costerm dmin dmax.
Proof.
  intros H1 H2. unfold costerm.
  apply Rmin_glb_lt; apply cos_deg_half; assumption.
Qed.

(** The half-width [r/costerm] lies between [r] and [2 r] for boxes within
    60 degrees of the equator. *)
Lemma halfwidth_bounds r dmin dmax :
  0 < r -> -60 < dmin < 60 -> -60 < dmax < 60 ->
  r <= r / costerm dmin dmax < 2 * r.
Proof.
  intros Hr H1 H2.
  pose proof (costerm_half dmin dmax H1 H2) as Hc.
  pose proof (costerm_le_1 dmin dmax) as Hc1.
  set (c := costerm dmin dmax) in *.
  assert (Hinv : 1 <= / c < 2).
  { split.
    - rewrite <- Rinv_1. apply Rinv_le_contravar; lra.
    - replace 2 with (/ (1 / 2)) by field.
      apply Rinv_lt_contravar; [nra | lra]. }
  unfold Rdiv. nra.
Qed.

(** The half-width explodes next to a pole: at 89 degrees the cosine is
    below 89/360. *)
Lemma costerm_at_89 : 0 < costerm (0 - 89) (0 + 89) < 89 / 360.
Proof.
  pose proof PI_RGT_0 as Hpi. pose proof PI_4 as Hpi4.
  unfold costerm.
  replace ((0 - 89) * PI / 180) with (- ((0 + 89) * PI / 180)) by lra.
  rewrite cos_neg, Rmin_left by lra.
  split.
  - apply cos_deg_pos; lra.
  - replace ((0 + 89) * PI / 180) with (PI / 2 - PI / 180) by lra.
    rewrite cos_shift.
    apply Rlt_trans with (PI / 180); [apply sin_lt_x; lra | lra].
Qed.

(** C3: when [DECcentre - r < -90] or [DECcentre + r > 90] the function
    returns the right-ascension range from 0 to 360. *)
Theorem pole_reaching_box_spans_all_ra (RA DEC r : R) :
  DEC - r < -90 \/ DEC + r > 90 ->
  ra_min (get_radec_maxmin RA DEC r) = 0
  /\ ra_max (get_radec_maxmin RA DEC r) = 360.
Proof.
  intros Hpole. unfold get_radec_maxmin.
  destruct Hpole as [Hsouth | Hnorth].
  - rewrite (proj2 (Rltb_true (DEC - r) (-90)) Hsouth).
    rewrite (proj2 (Reqb_true (-90) (-90)) eq_refl).
    cbn [orb ra_min ra_max]. split; reflexivity.
  - rewrite (proj2 (Rgtb_true (DEC + r) 90) Hnorth).
    rewrite (proj2 (Reqb_true 90 90) eq_refl).
    rewrite orb_true_r. cbn [ra_min ra_max]. split; reflexivity.
Qed.

(** C3 at the centre (10, 80) with radius 15. *)
Lemma pole_reaching_box_witness :
  (80 - 15 < -90 \/ 80 + 15 > 90)
  /\ ra_min (get_radec_maxmin 10 80 15) = 0
  /\ ra_max (get_radec_maxmin 10 80 15) = 360.
Proof.
  split; [right; lra |].
  apply (pole_reaching_box_spans_all_ra 10 80 15). right; lra.
Defined.

(** C4, amended: for a radius [r >= 0] the declination bounds are
    [DECcentre - r] cut below at -90 and [DECcentre + r] cut above at 90,
    for every centre; for a centre declination in [-90, 90] this is the
    clamp to [-90, 90], and for one in [-90 + r, 90 - r] the bounds are
    [DECcentre - r] and [DECcentre + r] themselves and lie in
    [-90, 90]. *)
Theorem dec_bounds_clamped (RA DEC r : R) :
  0 <= r ->
  let b := get_radec_maxmin RA DEC r in
  dec_min b = Rmax (-90) (DEC - r)
  /\ dec_max b = Rmin 90 (DEC + r)
  /\ (-90 <= DEC <= 90 ->
      dec_min b = clamp (-90) 90 (DEC - r)
      /\ dec_max b = clamp (-90) 90 (DEC + r))
  /\ (-90 + r <= DEC <= 90 - r ->
      dec_min b = DEC - r /\ dec_max b = DEC + r
      /\ -90 <= dec_min b <= 90 /\ -90 <= dec_max b <= 90).
Proof.
  intros Hr b. subst b. rewrite dec_min_eq, dec_max_eq.
  assert (Hmin : (if Rltb (DEC - r) (-90) then -90 else DEC - r)
                 = Rmax (-90) (DEC - r)).
  { unfold Rmax. destruct (Rle_dec (-90) (DEC - r)); decide_R; lra. }
  assert (Hmax : (if Rgtb (DEC + r) 90 then 90 else DEC + r)
                 = Rmin 90 (DEC + r)).
  { unfold Rmin. destruct (Rle_dec 90 (DEC + r)); decide_R; lra. }
  rewrite Hmin, Hmax. repeat split.
  - unfold clamp. rewrite (Rmin_right 90 (DEC - r)) by lra. reflexivity.
  - unfold clamp. rewrite (Rmax_right (-90) (Rmin 90 (DEC + r))).
    + reflexivity.
    + apply Rmin_glb; lra.
  - rewrite Rmax_right; lra.
  - rewrite Rmin_right; lra.
  - apply Rmax_l.
  - rewrite Rmax_right; lra.
  - rewrite Rmin_right; lra.
  - apply Rmin_l.
Qed.

(** C4, amended, at the centre (30, 40) with radius 1, where nothing is
    cut, and at the centre (30, 85) with radius 10, where the upper bound
    is. *)
Lemma dec_bounds_clamped_witness :
  0 <= 1
  /\ dec_min (get_radec_maxmin 30 40 1) = 40 - 1
  /\ dec_max (get_radec_maxmin 30 40 1) = 40 + 1
  /\ dec_min (get_radec_maxmin 30 85 10) = clamp (-90) 90 (85 - 10)
  /\ dec_max (get_radec_maxmin 30 85 10) = clamp (-90) 90 (85 + 10).
Proof.
  split; [lra |].
  destruct (dec_bounds_clamped 30 40 1) as (_ & _ & _ & Hin); [lra |].
  destruct Hin as (Hmin & Hmax & _); [lra |].
  destruct (dec_bounds_clamped 30 85 10) as (_ & _ & Hclamp & _); [lra |].
  destruct Hclamp as [Hcmin Hcmax]; [lra |].
  split; [exact Hmin | split; [exact Hmax | split; assumption]].
Defined.

(** C4, the claim as written fails for a centre outside [-90, 90]: at
    declination 100 with radius 1 the lower bound returned is 99, while
    99 clamped to [-90, 90] is 90. *)
Lemma dec_min_unclamped_at_dec_100 :
  0 <= 1
  /\ dec_min (get_radec_maxmin 30 100 1) = 99
  /\ clamp (-90) 90 (100 - 1) = 90
  /\ dec_min (get_radec_maxmin 30 100 1) > 90.
Proof.
  assert (Hmin : dec_min (get_radec_maxmin 30 100 1) = 99).
  { rewrite dec_min_eq. decide_R; lra. }
  split; [lra | split; [exact Hmin | split; [| lra]]].
  unfold clamp. rewrite (Rmin_left 90 (100 - 1)) by lra.
  apply Rmax_right. lra.
Qed.

(** C2, the claim as written fails: centre (0, 0) with radius 89 is away
    from both poles, yet the returned [ra_min] is negative. *)
Lemma ra_min_negative_at_radius_89 :
  0 - 89 > -90 /\ 0 + 89 < 90
  /\ ra_min (get_radec_maxmin 0 0 89) < 0.
Proof.
  split; [lra | split; [lra |]].
  destruct (nonpolar_box 0 0 89) as [Hmin _]; [lra | lra |].
  rewrite Hmin. unfold wrap_below.
  destruct costerm_at_89 as [Hpos Hsmall].
  set (c := costerm (0 - 89) (0 + 89)) in *.
  assert (Hw : 360 < 89 / c).
  { apply Rmult_lt_reg_r with c; [assumption |].
    unfold Rdiv. rewrite Rmult_assoc, Rinv_l by lra. lra. }
  decide_R; lra.
Qed.

(** The bound [ra_max = 360] is reached: the wrap test is strict. *)
Lemma ra_max_reaches_360 :
  let w := 1 / costerm (0 - 1) (0 + 1) in
  0 <= 360 - w < 360
  /\ ra_max (get_radec_maxmin (360 - w) 0 1) = 360.
Proof.
  intros w.
  assert (Hw : 1 <= w < 2 * 1) by (apply halfwidth_bounds; lra).
  split; [lra |].
  destruct (nonpolar_box (360 - w) 0 1) as [_ Hmax]; [lra | lra |].
  rewrite Hmax. fold w. unfold wrap_above. decide_R; lra.
Qed.

(** In binary64 the bound [ra_min = 360] is reached as well: the sum
    [ra_min + 360.0] is rounded.  At [RAcentre = 2^-30] with radius
    [2^-30 + 2^-47] on the equator, where the cosine term is 1, the
    difference is [-2^-47] and adding 360 gives 360 itself. *)
Lemma ra_min_rounds_to_360 :
  (0 <=? 0x1p-30)%float = true
  /\ (0x1p-30 <? 360)%float = true
  /\ (0x1p-30 - (0x1p-30 + 0x1p-47) * 1 / 1 <? 0)%float = true
  /\ ra_min_binary64 0x1p-30 (0x1p-30 + 0x1p-47) 1 = 360%float.
Proof. repeat split; reflexivity. Qed.

(** C2, amended: away from the poles the returned bounds are
    [RAcentre - r/costerm] and [RAcentre + r/costerm] after the wrap
    (+360 below 0, -360 above 360); when moreover [0 <= RAcentre < 360]
    and [0 <= r/costerm <= 360], [ra_min] and [ra_max] both lie in
    [0, 360].  Neither bound can be tightened to exclude 360 for the
    values the machine computes: [ra_max = 360] is returned because the
    wrap test is strict, [ra_min = 360] because the wrapped sum is
    rounded. *)
Theorem nonpolar_ra_bounds (RA DEC r : R) :
  DEC - r > -90 -> DEC + r < 90 ->
  let b := get_radec_maxmin RA DEC r in
  let w := r / costerm (DEC - r) (DEC + r) in
  ra_min b = wrap_below (RA - w)
  /\ ra_max b = wrap_above (RA + w)
  /\ (0 <= RA < 360 -> 0 <= w <= 360 ->
      0 <= ra_min b <= 360 /\ 0 <= ra_max b <= 360).
Proof.
  intros Hlo Hhi b w. subst b.
  destruct (nonpolar_box RA DEC r Hlo Hhi) as [Hmin Hmax].
  fold w in Hmin, Hmax. rewrite Hmin, Hmax.
  split; [reflexivity | split; [reflexivity |]].
  intros HRA Hw. unfold wrap_below, wrap_above.
  decide_R; lra.
Qed.

(** C2, amended, at the centre (10, 0) with radius 1. *)
Lemma nonpolar_ra_bounds_witness :
  0 - 1 > -90 /\ 0 + 1 < 90
  /\ 0 <= ra_min (get_radec_maxmin 10 0 1) <= 360
  /\ 0 <= ra_max (get_radec_maxmin 10 0 1) <= 360.
Proof.
  split; [lra | split; [lra |]].
  destruct (nonpolar_ra_bounds 10 0 1) as (_ & _ & Hin); [lra | lra |].
  assert (Hw : 1 <= 1 / costerm (0 - 1) (0 + 1) < 2 * 1)
    by (apply halfwidth_bounds; lra).
  apply Hin; lra.
Defined.

End BoundingBox.

(* ====================================================================== *)
(** * Properties of the downloader run *)
(* ====================================================================== *)

Module DownloaderRun.
Import Py Downloader BoundingBox.
Local Open Scope R_scope.


(** Otherwise exactly one search is posted, with the box as the range. *)
Lemma query_archive_ordered srv opts box s :
  ra_min box <= ra_max box ->
  exists jj,
    query_archive srv opts box s
    = (Ok (tl (adv_search srv jj)),
       mk_state (trace s ++ [SearchPost jj]) (token s))
    /\ In (RangeNum "ra_center" (ra_min box) (ra_max box)) (search jj).
Proof.
  intros Hord. unfold query_archive.
  destruct (Rgtb (ra_min box) (ra_max box)) eqn:Hgt.
  - apply Rgtb_true in Hgt. lra.
  - eexists. split; [reflexivity |].
    cbn [search]. apply in_or_app. right. left. reflexivity.
Qed.




(** ** The authenticated download *)

Local Open Scope string_scope.

(** A refused file request: the download error carries the status text and
    the [message] of the body, and no file is written. *)
Lemma download_get_refused srv opts row out_path s tok r2 name names body
    message :
  let r := get_token srv (username opts) (pw opts) in
  let fileurl := natroot ++ "/api/retrieve/" ++ md5sum row in
  status_code r = 200%Z ->
  json_body r = Some tok ->
  retrieve srv fileurl tok = r2 ->
  status_code r2 <> 200%Z ->
  status_codes srv (status_code r2) = Some (name :: names) ->
  json_body r2 = Some body ->
  json_item body "message" = Ok message ->
  download_file srv opts row out_path s
  = (Raise (PyException
              ("Error getting file (" ++ name ++ "). " ++ message)),
     mk_state
       (trace s ++ [TokenPost (username opts) (pw opts)]
          ++ [FileGet fileurl tok])
       (Some tok)).
Proof.
  intros r fileurl Hstatus Hbody Hr2 Hstatus2 Hnames Hbody2 Hmessage.
  apply Z.eqb_neq in Hstatus2. apply Z.eqb_eq in Hstatus.
  unfold download_file, bind, emit, set_token, modify, lift, raise,
    response_json.
  fold r. rewrite Hstatus, Hbody. cbn [trace token].
  fold fileurl. rewrite Hr2, Hstatus2, Hnames, Hbody2, Hmessage.
  cbn [list_get nth_error]. rewrite <- app_assoc. reflexivity.
Qed.

(** Both requests accepted: the content is written to [out_path]. *)
Lemma download_accepted srv opts row out_path s tok r2 :
  let r := get_token srv (username opts) (pw opts) in
  let fileurl := natroot ++ "/api/retrieve/" ++ md5sum row in
  status_code r = 200%Z ->
  json_body r = Some tok ->
  retrieve srv fileurl tok = r2 ->
  status_code r2 = 200%Z ->
  download_file srv opts row out_path s
  = (Ok tt,
     mk_state
       (trace s ++ [TokenPost (username opts) (pw opts)]
          ++ [FileGet fileurl tok] ++ [FileWrite out_path (content r2)])
       (Some tok)).
Proof.
  intros r fileurl Hstatus Hbody Hr2 Hstatus2.
  apply Z.eqb_eq in Hstatus2. apply Z.eqb_eq in Hstatus.
  unfold download_file, bind, emit, set_token, modify, lift, raise,
    response_json.
  fold r. rewrite Hstatus, Hbody. cbn [trace token].
  fold fileurl. rewrite Hr2, Hstatus2. cbn [trace token].
  rewrite <- !app_assoc. reflexivity.
Qed.

(** C6: when the token request is refused (a status other than 200), the
    file is not requested, and the exception raised does not carry the
    detail of the server's answer: its message is read off the local
    [token], which the refusal never sets.  With [token] unbound (the
    first file of a run) the exception is an [UnboundLocalError]; with the
    token of an earlier file it is what indexing that token gives. *)
Theorem refused_token_loses_detail
    (srv : archive) (opts : options) (row : archive_row)
    (out_path : string) (s : run_state) :
  status_code (get_token srv (username opts) (pw opts)) <> 200%Z ->
  download_file srv opts row out_path s
  = (match token s with
     | None => Raise (UnboundLocalError "token")
     | Some tok =>
         match json_item tok "detail" with
         | Ok detail =>
             Raise (PyException ("Could got get authorization: " ++ detail))
         | Raise e => Raise e
         end
     end,
     mk_state (trace s ++ [TokenPost (username opts) (pw opts)]) (token s)).
Proof.
  intros Hstatus. apply Z.eqb_neq in Hstatus.
  unfold download_file, bind, emit, modify, read_token, lift, raise.
  rewrite Hstatus. cbn [token trace].
  destruct (token s) as [tok |]; [| reflexivity].
  destruct (json_item tok "detail"); reflexivity.
Qed.

(** C6 at the failing input: the first file of a run, token request
    answered 401 with the detail "Invalid credentials". *)
Lemma refused_token_witness :
  download_file Scenarios.refusing_archive Scenarios.example_options
    Scenarios.example_row Scenarios.example_out_path init_state
  = (Raise (UnboundLocalError "token"),
     mk_state [TokenPost (Some "user") (Some "pw")] None).
Proof.
  apply (refused_token_loses_detail Scenarios.refusing_archive
           Scenarios.example_options Scenarios.example_row
           Scenarios.example_out_path init_state).
  cbn. discriminate.
Defined.

(** The same input through the loop body: the directory is made, the
    token is requested, and the run stops there. *)
Lemma refused_token_in_loop_body :
  process_row Scenarios.refusing_archive Scenarios.example_options (KInt 1)
    Scenarios.example_row init_state
  = (Raise (UnboundLocalError "token"),
     mk_state
       [Makedirs "/data/raw//S82sub8/1"; TokenPost (Some "user") (Some "pw")]
       None).
Proof. reflexivity. Qed.

(** ** Detector names, file names and paths *)

Lemma find_all_false {A} (f : A -> bool) (l : list A) :
  Forall (fun x => f x = false) l -> find f l = None.
Proof.
  induction 1 as [| x l Hx _ IH]; [reflexivity |].
  cbn [find]. rewrite Hx. exact IH.
Qed.

(** Every integer key of the table is an ordinal from 1 to 62. *)
Lemma ccd_code_dic_keys :
  Forall (fun kv => match fst kv with
                    | KInt m => (1 <= m <= 62)%Z
                    | KStr _ => True
                    end) ccd_code_dic.
Proof. unfold ccd_code_dic. repeat constructor; cbn; lia. Qed.

(** X1: the detector table: ordinal 1 is S29 and ordinal 62 is N31, under the
    integer and under the string key; every ordinal from 1 to 62 is found,
    with the same name under both keys; any other ordinal is a
    [KeyError]. *)
Theorem ccd_code_table :
  ccd_code_lookup (KInt 1) = Ok "S29"
  /\ ccd_code_lookup (KStr "1") = Ok "S29"
  /\ ccd_code_lookup (KInt 62) = Ok "N31"
  /\ ccd_code_lookup (KStr "62") = Ok "N31"
  /\ (forall n, (1 <= n <= 62)%Z ->
                exists code,
                  ccd_code_lookup (KInt n) = Ok code
                  /\ ccd_code_lookup (KStr (str_of_Z n)) = Ok code)
  /\ (forall n, (n < 1 \/ 62 < n)%Z ->
                ccd_code_lookup (KInt n) = Raise (KeyError (str_of_Z n))).
Proof.
  repeat (split; [reflexivity |]). split.
  - intros n Hn.
    destruct n as [| p | p]; try lia.
    do 6 (try destruct p as [p | p |]); try lia;
      eexists; split; reflexivity.
  - intros n Hn. unfold ccd_code_lookup.
    rewrite find_all_false; [reflexivity |].
    eapply Forall_impl; [| apply ccd_code_dic_keys].
    intros [[m | k] code]; cbn [fst ccd_key_eqb]; [| reflexivity].
    intros Hm. apply Z.eqb_neq. lia.
Qed.

(** The path of the usage example: pointing S82sub8, date 2021-06-05,
    product code image1, band g, tag kfttest and CCD 1 give the file name
    [S82sub8.20210605_image1_g_kfttest_S29.fits.fz]. *)
Theorem example_path_built :
  build_out_path Scenarios.example_options (KInt 1) Scenarios.example_row
  = Ok Scenarios.example_out_path
  /\ Scenarios.example_out_path
     = "/data/raw//S82sub8/1/S82sub8.20210605_image1_g_kfttest_S29.fits.fz".
Proof. split; reflexivity. Qed.

(** The file-name filter: of [a_kfttest_1.fits] and [a_other_1.fits] the
    token [kfttest] keeps exactly the first. *)
Theorem file_string_filter_example :
  List.filter (fun x => file_string_in_x x "kfttest")
    ["a_kfttest_1.fits"; "a_other_1.fits"]
  = ["a_kfttest_1.fits"].
Proof. reflexivity. Qed.

(** X4: a refused file request after a granted token: the run raises the
    download error with the status text and the message of the body, the
    trace holds the token request and the file request, and no write. *)
Theorem refused_file_raises_download_error
    (srv : archive) (opts : options) (row : archive_row)
    (out_path : string) (s : run_state) (tok : json_value)
    (name : string) (names : list string) (body : json_value)
    (message : string) :
  let r := get_token srv (username opts) (pw opts) in
  let fileurl := natroot ++ "/api/retrieve/" ++ md5sum row in
  let r2 := retrieve srv fileurl tok in
  status_code r = 200%Z ->
  json_body r = Some tok ->
  status_code r2 <> 200%Z ->
  status_codes srv (status_code r2) = Some (name :: names) ->
  json_body r2 = Some body ->
  json_item body "message" = Ok message ->
  exists s',
    download_file srv opts row out_path s
    = (Raise (PyException
                ("Error getting file (" ++ name ++ "). " ++ message)), s')
    /\ trace s'
       = (trace s ++ [TokenPost (username opts) (pw opts);
                      FileGet fileurl tok])%list.
Proof.
  intros r fileurl r2 Hstatus Htok Hstatus2 Hnames Hbody Hmessage.
  eexists. split.
  - apply (download_get_refused srv opts row out_path s tok r2 name names
             body message); auto.
  - reflexivity.
Qed.

(** X4 at an archive that answers the file request with 404. *)
Lemma refused_file_witness :
  exists s',
    download_file Scenarios.forgetful_archive Scenarios.example_options
      Scenarios.example_row Scenarios.example_out_path init_state
    = (Raise (PyException
                "Error getting file (not_found). No such file in the archive"),
       s')
    /\ trace s'
       = [TokenPost (Some "user") (Some "pw");
          FileGet "https://astroarchive.noirlab.edu/api/retrieve/0123abcd"
            (JStr "token-123")].
Proof.
  apply (refused_file_raises_download_error Scenarios.forgetful_archive
           Scenarios.example_options Scenarios.example_row
           Scenarios.example_out_path init_state (JStr "token-123")
           "not_found" ["-o-"]
           (JObj [("message", "No such file in the archive")])
           "No such file in the archive");
    try reflexivity.
  cbn. discriminate.
Defined.

End DownloaderRun.

(* ====================================================================== *)
(** * Properties of the catalogue query *)
(* ====================================================================== *)

Module CatalogProps.
Import Py CatalogPipe.
Local Open Scope string_scope.

(** ** Comparisons of binary64 values *)

Lemma SFcompare_swap (x y : spec_float) :
  SFcompare y x = option_map CompOpp (SFcompare x y).
Proof.
  destruct x as [sx | sx | | sx mx ex], y as [sy | sy | | sy my ey];
    try reflexivity;
    try (destruct sx; reflexivity);
    try (destruct sy; reflexivity);
    try (destruct sx, sy; reflexivity).
  cbn [SFcompare option_map].
  destruct sx, sy; try reflexivity.
  - rewrite (Z.compare_antisym ex ey).
    destruct (ex ?= ey)%Z; cbn [CompOpp]; try reflexivity.
    rewrite (Pos.compare_cont_antisym mx my Eq). reflexivity.
  - rewrite (Z.compare_antisym ex ey).
    destruct (ex ?= ey)%Z; cbn [CompOpp]; try reflexivity.
    rewrite (Pos.compare_cont_antisym mx my Eq). reflexivity.
Qed.

Lemma is_nan_SFcompare (x : float) :
  is_nan x = false -> forall y, Prim2SF y <> S754_nan ->
  exists c, SFcompare (Prim2SF x) (Prim2SF y) = Some c.
Proof.
  unfold is_nan. rewrite eqb_spec. unfold SFeqb.
  intros Hx y Hy.
  destruct (Prim2SF x) as [sx | sx | | sx mx ex]; cbn in Hx;
    try discriminate;
    destruct (Prim2SF y) as [sy | sy | | sy my ey]; try congruence;
    cbn [SFcompare]; eexists; reflexivity.
Qed.

(** For a number [m], [m < 30] is the negation of [30 <= m]. *)
Lemma ltb_30_not_leb (m : float) :
  is_nan m = false ->
  PrimFloat.ltb m 30 = negb (PrimFloat.leb 30 m).
Proof.
  intros Hm. rewrite ltb_spec, leb_spec. unfold SFltb, SFleb.
  rewrite (SFcompare_swap (Prim2SF m) (Prim2SF 30)).
  destruct (is_nan_SFcompare m Hm 30%float) as [c Hc].
  - vm_compute. discriminate.
  - rewrite Hc. destruct c; reflexivity.
Qed.

(** A not-a-number is below nothing. *)
Lemma ltb_nan (m y : float) : is_nan m = true -> PrimFloat.ltb m y = false.
Proof.
  unfold is_nan. rewrite eqb_spec, ltb_spec. unfold SFeqb, SFltb.
  destruct (Prim2SF m) as [sx | sx | | sx mx ex]; cbn [SFcompare].
  - discriminate.
  - destruct sx; discriminate.
  - reflexivity.
  - destruct sx; cbn; rewrite Z.compare_refl, Pos.compare_cont_refl;
      discriminate.
Qed.

(** ** Row selection *)

Lemma existsb_nan_index (mags : list float) (k : nat) :
  (k < List.length mags)%nat ->
  existsb (Nat.eqb k) (nan_index mags) = is_nan (nth k mags nan).
Proof.
  intros Hk. apply eq_true_iff_eq. rewrite existsb_exists. unfold nan_index.
  split.
  - intros (j & Hj & Hkj). apply Nat.eqb_eq in Hkj. subst j.
    apply filter_In in Hj. apply Hj.
  - intros Hnan. exists k. split; [| apply Nat.eqb_refl].
    apply filter_In. split; [| assumption].
    apply in_seq. lia.
Qed.

Lemma delete_at_filter {A} (keep : A -> bool) (xs : list A)
    (index : list nat) (pos : nat) :
  (forall k x, nth_error xs k = Some x ->
               existsb (Nat.eqb (pos + k)) index = negb (keep x)) ->
  delete_at pos xs index = List.filter keep xs.
Proof.
  revert pos. induction xs as [| x rest IH]; intros pos Hidx.
  - reflexivity.
  - cbn [delete_at List.filter].
    pose proof (Hidx 0%nat x eq_refl) as Hx.
    rewrite Nat.add_0_r in Hx. rewrite Hx.
    rewrite (IH (S pos)).
    + destruct (keep x); reflexivity.
    + intros k y Hk. rewrite <- (Hidx (S k) y Hk).
      rewrite Nat.add_succ_r. reflexivity.
Qed.

(** Removing the rows listed by [nan_index] keeps the rows whose cell is a
    number. *)
Lemma delete_nan_rows {A} (cell : A -> float) (xs : list A) :
  delete_at 0 xs (nan_index (map cell xs))
  = List.filter (fun x => negb (is_nan (cell x))) xs.
Proof.
  apply delete_at_filter. intros k x Hk. cbn [Nat.add].
  rewrite existsb_nan_index.
  - rewrite negb_involutive.
    assert (Hn : nth_error (map cell xs) k = Some (cell x))
      by (rewrite nth_error_map, Hk; reflexivity).
    rewrite (nth_error_nth _ _ nan Hn). reflexivity.
  - rewrite length_map. apply nth_error_Some. congruence.
Qed.

Lemma select_map {A} (test : A -> bool) (xs : list A) :
  select xs (map test xs) = List.filter test xs.
Proof.
  induction xs as [| x rest IH]; [reflexivity |].
  cbn [map select List.filter]. rewrite IH. reflexivity.
Qed.

Lemma filter_filter {A} (f g : A -> bool) (xs : list A) :
  List.filter g (List.filter f xs) = List.filter (fun x => f x && g x) xs.
Proof.
  induction xs as [| x rest IH]; [reflexivity |].
  cbn [List.filter]. destruct (f x); cbn [andb List.filter];
    rewrite IH; reflexivity.
Qed.

(** Not a number, or not below 30: the two tests of the driver keep what
    [kept_magnitude] keeps. *)
Lemma driver_tests_keep (m : float) :
  negb (is_nan m) && PrimFloat.ltb m 30 = kept_magnitude m.
Proof.
  unfold kept_magnitude. destruct (is_nan m) eqn:Hm; [reflexivity |].
  rewrite (ltb_30_not_leb m Hm). reflexivity.
Qed.

(** ** Cells of well-formed tables *)

Lemma index_of_lt (name : string) (names : list string) (i : nat) :
  index_of name names = Some i -> (i < List.length names)%nat.
Proof.
  revert i. induction names as [| n rest IH]; intros i Hi; [discriminate |].
  cbn [index_of] in Hi. destruct (String.eqb name n).
  - injection Hi as <-. cbn. lia.
  - destruct (index_of name rest) as [j |]; [| discriminate].
    injection Hi as <-. specialize (IH j eq_refl). cbn. lia.
Qed.

Lemma row_item_cell (names : list string) (row : list float)
    (name : string) (i : nat) :
  index_of name names = Some i ->
  List.length row = List.length names ->
  row_item names row name = Ok (nth i row nan).
Proof.
  intros Hi Hlen. unfold row_item, list_get. rewrite Hi.
  apply index_of_lt in Hi. rewrite <- Hlen in Hi.
  destruct (nth_error row i) as [v |] eqn:Hv.
  - rewrite (nth_error_nth _ _ nan Hv). reflexivity.
  - apply nth_error_None in Hv. lia.
Qed.

Lemma column_cells (t : table) (name : string) (i : nat) :
  index_of name (colnames t) = Some i ->
  column t name = Ok (map (fun row => nth i row nan) (rows t)).
Proof. intros Hi. unfold column. rewrite Hi. reflexivity. Qed.

(** ** The magnitude selection of the driver *)

Lemma select_magnitudes_rows args c fil f0 t s i :
  index_of "mag" (colnames t) = Some i ->
  first_char fil = Ok f0 ->
  exists out,
    select_magnitudes args c fil t s
    = (Ok (mk_table (colnames t)
             (List.filter (fun row => kept_magnitude (nth i row nan))
                (rows t))),
       mk_state (stdout s ++ out) (queries s) (files s))
    /\ (out = []
        \/ exists t_bright,
            out = [PrintBright (bright_thresh args) (field c) f0 (ampl c);
                   PrintTable t_bright]).
Proof.
  intros Hi Hf0.
  set (cell := fun row : list float => nth i row nan).
  set (numbers := List.filter (fun row => negb (is_nan (cell row))) (rows t)).
  assert (Hrows : delete_at 0 (rows t) (nan_index (map cell (rows t)))
                  = numbers) by apply delete_nan_rows.
  assert (Hcol : column (remove_rows t (nan_index (map cell (rows t)))) "mag"
                 = Ok (map cell numbers)).
  { rewrite (column_cells _ "mag" i) by exact Hi.
    cbn [rows remove_rows]. rewrite Hrows. reflexivity. }
  assert (Hfinal :
            select_rows (remove_rows t (nan_index (map cell (rows t))))
              (map (fun m => PrimFloat.ltb m 30) (map cell numbers))
            = mk_table (colnames t)
                (List.filter (fun row => kept_magnitude (cell row))
                   (rows t))).
  { unfold select_rows, remove_rows. cbn [colnames rows].
    rewrite Hrows, map_map, select_map. unfold numbers.
    rewrite filter_filter. f_equal.
    apply filter_ext. intros row. apply driver_tests_keep. }
  unfold select_magnitudes, bind, lift.
  rewrite (column_cells t "mag" i Hi). fold cell.
  destruct (existsb _ _).
  - rewrite Hcol, Hf0. unfold print, modify, ret. cbn [stdout queries files].
    rewrite Hfinal. eexists. split.
    + rewrite <- app_assoc. reflexivity.
    + right. eexists. reflexivity.
  - unfold ret. rewrite Hcol, Hfinal. exists []. split.
    + rewrite app_nil_r. destruct s; reflexivity.
    + left. reflexivity.
Qed.

(** ** Writing *)

Lemma write_rows_entries (names : list string) (p : string)
    (i_ra i_dec i_mag i_emag : nat) (rws : list (list float)) :
  index_of "ra" names = Some i_ra ->
  index_of "dec" names = Some i_dec ->
  index_of "mag" names = Some i_mag ->
  index_of "e_mag" names = Some i_emag ->
  Forall (fun row => List.length row = List.length names) rws ->
  forall out qs ls rest,
    for_each rws (write_row names) (mk_state out qs ((p, ls) :: rest))
    = (Ok tt,
       mk_state out qs
         ((p, (ls ++ map (fun row =>
                            Entry (nth i_ra row nan) (nth i_dec row nan)
                              (nth i_mag row nan) (nth i_emag row nan))
                      rws)%list) :: rest)).
Proof.
  intros Hra Hdec Hmag Hemag Hwf.
  induction Hwf as [| row rws Hrow _ IH]; intros out qs ls rest.
  - cbn [for_each map]. rewrite app_nil_r. reflexivity.
  - cbn [for_each map]. unfold bind at 1.
    unfold write_row, bind, lift.
    rewrite (row_item_cell names row "ra" i_ra Hra Hrow).
    rewrite (row_item_cell names row "dec" i_dec Hdec Hrow).
    rewrite (row_item_cell names row "mag" i_mag Hmag Hrow).
    rewrite (row_item_cell names row "e_mag" i_emag Hemag Hrow).
    unfold write_line, modify. cbn [files stdout queries].
    rewrite IH. rewrite <- app_assoc. reflexivity.
Qed.


Lemma filter_well_formed (t : table) (test : list float -> bool) :
  well_formed t ->
  Forall (fun row => List.length row = List.length (colnames t))
    (List.filter test (rows t)).
Proof.
  unfold well_formed. rewrite !Forall_forall.
  intros Hwf row Hrow. apply filter_In in Hrow. apply Hwf, Hrow.
Qed.



(** ** Catalogue names *)

Lemma prefix_app (s1 s2 : string) :
  String.prefix s1 s2 = true <-> exists rest, s2 = s1 ++ rest.
Proof.
  revert s2. induction s1 as [| a s1 IH]; intros s2.
  - split; [intros _; exists s2; reflexivity |].
    intros _. destruct s2; reflexivity.
  - destruct s2 as [| b s2]; cbn [String.prefix].
    + split; [discriminate | intros [rest H]; discriminate].
    + destruct (ascii_dec a b) as [-> | Hab].
      * rewrite IH. split; intros [rest H]; exists rest.
        -- cbn. rewrite H. reflexivity.
        -- cbn in H. injection H as H. exact H.
      * split; [discriminate |].
        intros [rest H]. cbn in H. injection H as H _. congruence.
Qed.

(** [needle in haystack] is true exactly when [needle] occurs in
    [haystack]. *)
Lemma str_in_Substring (needle haystack : string) :
  str_in needle haystack = true <-> Substring needle haystack.
Proof.
  split.
  - induction haystack as [| c rest IH]; cbn [str_in];
      destruct (String.prefix needle _) eqn:Hp;
      try (apply prefix_app in Hp; destruct Hp as [after Hp];
           intros _; exists "", after; exact Hp);
      [discriminate |].
    intros H. destruct (IH H) as (before & after & Hrest).
    exists (String c before), after. cbn. rewrite Hrest. reflexivity.
  - intros (before & after & ->).
    induction before as [| c before IH].
    + cbn [append].
      assert (Hp : String.prefix needle (needle ++ after) = true)
        by (apply prefix_app; exists after; reflexivity).
      destruct (needle ++ after); cbn [str_in]; rewrite Hp; reflexivity.
    + cbn [append str_in]. rewrite IH.
      destruct (String.prefix needle _); reflexivity.
Qed.

Lemma resolve_alias_none (catname : string) :
  (forall group alias,
      In group known_aliases -> In alias (fst group) ->
      ~ Substring alias catname) ->
  resolve_alias catname = None.
Proof.
  intros Hnone. unfold resolve_alias.
  destruct (find _ known_aliases) as [group |] eqn:Hfind; [| reflexivity].
  apply find_some in Hfind. destruct Hfind as [Hin Hex].
  apply existsb_exists in Hex. destruct Hex as (alias & Halias & Hsub).
  apply str_in_Substring in Hsub.
  exfalso. exact (Hnone group alias Hin Halias Hsub).
Qed.

(** The constructor never raises; it sets [catID] to the resolved ID and
    prints the two lines when there is none. *)
Lemma PhotoCatalog_init_resolves field_center field_size catname fil s :
  PhotoCatalog_init field_center field_size catname fil s
  = (Ok (mk_PhotoCatalog (fst field_center) (snd field_center) field_size
           catname fil (resolve_alias catname)),
     match resolve_alias catname with
     | Some _ => s
     | None =>
         mk_state
           (stdout s
              ++ [Print "Catalog name not recognized! Available catalogs:";
                  Print "Gaia, APASS, PS1"])
           (queries s) (files s)
     end).
Proof.
  unfold PhotoCatalog_init, resolve_alias, known_aliases.
  cbn [find existsb fst snd option_map].
  rewrite !orb_false_r.
  repeat match goal with
    | |- context [str_in ?a catname] =>
        destruct (str_in a catname); cbn [orb option_map snd]
    end;
    try reflexivity.
  unfold bind, print, modify, ret. cbn [stdout queries files].
  rewrite <- app_assoc. reflexivity.
Qed.

(** C9: the constructor resolves the catalogue ID by looking for the known
    aliases in the name, in order; a name that holds "gaia" or "Gaia" gets
    the Gaia DR2 ID; a name that holds no alias leaves the ID unset, prints
    the two-line report and returns without raising. *)
Theorem catalog_id_by_alias
    (field_center : R * R) (field_size : R) (catname fil : string)
    (s : run_state) :
  exists self s',
    PhotoCatalog_init field_center field_size catname fil s = (Ok self, s')
    /\ catID self = resolve_alias catname
    /\ (Substring "gaia" catname \/ Substring "Gaia" catname ->
        catID self = Some "I/345/gaia2" /\ s' = s)
    /\ ((forall group alias,
            In group known_aliases -> In alias (fst group) ->
            ~ Substring alias catname) ->
        catID self = None
        /\ stdout s'
           = (stdout s
                ++ [Print "Catalog name not recognized! Available catalogs:";
                    Print "Gaia, APASS, PS1"])%list
        /\ queries s' = queries s /\ files s' = files s).
Proof.
  eexists. eexists.
  split; [apply PhotoCatalog_init_resolves |].
  split; [reflexivity |].
  cbn [catID]. split.
  - intros Hgaia.
    assert (Hres : resolve_alias catname = Some "I/345/gaia2").
    { unfold resolve_alias, known_aliases. cbn [find existsb fst].
      destruct Hgaia as [H | H]; apply str_in_Substring in H; rewrite H;
        [| rewrite orb_true_r]; reflexivity. }
    rewrite Hres. split; reflexivity.
  - intros Hnone. rewrite (resolve_alias_none catname Hnone).
    cbn [stdout queries files]. repeat split; reflexivity.
Qed.

(** ** The query clients *)

(** [PhotoCatalog.query] sends one request; an empty answer gives [None],
    any other answer the table filed under the catalogue ID. *)
Lemma query_outcome srv self cols id s :
  catID self = Some id ->
  columns_select self = Ok cols ->
  let req := photo_request self cols id in
  let t_result := srv (List.length (queries s)) req in
  query srv self s
  = (match t_result with
     | [] => Ok None
     | _ :: _ =>
         match assoc id t_result with
         | Some t => Ok (Some t)
         | None => Raise TypeError
         end
     end,
     mk_state (stdout s) (queries s ++ [req]) (files s)).
Proof.
  intros Hid Hcols req t_result.
  unfold query, bind, lift, query_region, ret. rewrite Hcols, Hid.
  fold (photo_request self cols id). fold req. fold t_result.
  destruct t_result as [| entry rest] eqn:Ht; [reflexivity |].
  cbn [List.length Nat.eqb]. unfold tables_item.
  destruct (assoc id (entry :: rest)); reflexivity.
Qed.

(** An object whose catalogue name was not recognised cannot be queried:
    the attribute [catID] does not exist. *)
Lemma query_unrecognised srv self s :
  catID self = None ->
  query srv self s = (Raise (AttributeError "catID"), s).
Proof.
  intros Hid. unfold query, bind, lift, columns_select. rewrite Hid.
  reflexivity.
Qed.

(** [query_gaia_astrom] looks the table up before it tests for emptiness:
    a table without rows gives [None], a table with rows is returned, and
    an answer without a table for the catalogue is a [TypeError]. *)
Lemma query_gaia_astrom_outcome srv self s :
  let req := gaia_request self in
  query_gaia_astrom srv self s
  = (match assoc (gaia_catID self) (srv (List.length (queries s)) req) with
     | None => Raise TypeError
     | Some t =>
         match rows t with
         | [] => Ok None
         | _ :: _ => Ok (Some t)
         end
     end,
     mk_state (stdout s) (queries s ++ [req]) (files s)).
Proof.
  intros req.
  unfold query_gaia_astrom, bind, lift, query_region, ret, tables_item.
  fold (gaia_request self). fold req.
  destruct (assoc _ _) as [t |]; [| reflexivity].
  destruct (rows t); reflexivity.
Qed.

(** X5: the driver asks once, and once more after a [None]; it gives up after
    the second [None]. *)
Lemma query_twice_requests srv args c cat s :
  let r := fst (query_twice srv args c cat s) in
  let s' := snd (query_twice srv args c cat s) in
  let sent := (List.length (queries s') - List.length (queries s))%nat in
  (sent <= 2)%nat
  /\ (r = Ok None -> sent = 2%nat)
  /\ (forall t, r = Ok (Some t) -> sent = 1%nat \/ sent = 2%nat).
Proof.
  assert (Hq : forall s0,
             queries (snd (query srv cat s0)) = queries s0
             \/ queries (snd (query srv cat s0))
                = (queries s0 ++ [photo_request cat
                                    match columns_select cat with
                                    | Ok cols => cols
                                    | Raise _ => []
                                    end
                                    match catID cat with
                                    | Some id => id
                                    | None => ""
                                    end])%list).
  { intros s0. unfold query, bind, lift, query_region, ret, tables_item.
    destruct (columns_select cat); [| left; reflexivity].
    destruct (catID cat); [| left; reflexivity].
    right. destruct (Nat.eqb _ 0); [reflexivity |].
    destruct (assoc _ _); reflexivity. }
  assert (Hok : forall s0 v,
             fst (query srv cat s0) = Ok v ->
             List.length (queries (snd (query srv cat s0)))
             = S (List.length (queries s0))).
  { intros s0 v. unfold query, bind, lift, query_region, ret, tables_item.
    destruct (columns_select cat); [| discriminate].
    destruct (catID cat); [| discriminate].
    intros _. destruct (Nat.eqb _ 0);
      [| destruct (assoc _ _)]; cbn [snd queries];
      rewrite length_app; cbn; lia. }
  assert (Hle : forall s0,
             (List.length (queries s0)
              <= List.length (queries (snd (query srv cat s0)))
              <= S (List.length (queries s0)))%nat).
  { intros s0. destruct (Hq s0) as [-> | ->]; [lia |].
    rewrite length_app. cbn. lia. }
  cbv zeta. unfold query_twice, bind.
  pose proof (Hok s) as Hok1. pose proof (Hle s) as Hle1.
  destruct (query srv cat s) as [[[t |] | e] s1]; cbn [fst snd] in *.
  - unfold ret. cbn [fst snd]. specialize (Hok1 _ eq_refl).
    repeat split; intros; try discriminate; lia.
  - specialize (Hok1 _ eq_refl).
    unfold print, modify. cbn [stdout queries files].
    set (s2 := mk_state _ (queries s1) (files s1)).
    pose proof (Hok s2) as Hok2. pose proof (Hle s2) as Hle2.
    change (queries s2) with (queries s1) in *.
    destruct (query srv cat s2) as [[[t |] | e] s3]; cbn [fst snd] in *.
    + unfold ret. cbn [fst snd]. specialize (Hok2 _ eq_refl).
      repeat split; intros; try discriminate; lia.
    + specialize (Hok2 _ eq_refl). unfold ret. cbn [fst snd queries].
      repeat split; intros; try discriminate; lia.
    + repeat split; intros; try discriminate; lia.
  - repeat split; intros; try discriminate; lia.
Qed.

(** C5: for the catalogue PS1 and each band of the driver,
    [PhotoCatalog.query] asks for the columns [<band>mag] and
    [e_<band>mag], and on a table with the requested columns the renaming
    stops with a [KeyError] on [<band>_mag]: the column [<band>mag] is not
    renamed to [mag]. *)
Theorem panstarrs_rename_misses_requested_columns
    (b : string) (ra dec size : R) (cells : list (list float)) :
  In b ["g"; "i"] ->
  exists cols,
    columns_select (mk_PhotoCatalog ra dec size "PS1" b (resolve_alias "PS1"))
    = Ok cols
    /\ In (b ++ "mag") cols /\ In ("e_" ++ b ++ "mag") cols
    /\ standard_columns "PS1" b (mk_table cols cells)
       = Raise (KeyError (b ++ "_mag")).
Proof.
  intros [<- | [<- | []]]; eexists;
    (split; [reflexivity |]);
    (split; [cbn; tauto |]);
    (split; [cbn; tauto | reflexivity]).
Qed.

(** C5 at the failing input: PS1, band g. *)
Lemma panstarrs_rename_witness :
  exists cols,
    columns_select
      (mk_PhotoCatalog 10 (-30) 18 "PS1" "g" (resolve_alias "PS1"))
    = Ok cols
    /\ In "gmag" cols /\ In "e_gmag" cols
    /\ standard_columns "PS1" "g" (mk_table cols [])
       = Raise (KeyError "g_mag").
Proof.
  apply (panstarrs_rename_misses_requested_columns "g" 10 (-30) 18 []).
  left. reflexivity.
Defined.

(** What the renaming does rename: the columns [g_mag] and [e_g_mag],
    written with an underscore. *)
Lemma panstarrs_rename_underscore (cells : list (list float)) :
  standard_columns "APASS" "g'"
    (mk_table ["RAJ2000"; "DEJ2000"; "g_mag"; "e_g_mag"] cells)
  = Ok (mk_table ["ra"; "dec"; "mag"; "e_mag"] cells).
Proof. reflexivity. Qed.

(** C7: when Vizier answers the Gaia query with an empty list of tables
    (no source in the box), [query_gaia_astrom] does not return [None]: the
    request has been sent and indexing the empty answer with the catalogue
    ID raises a [TypeError]. *)
Theorem gaia_query_raises_on_empty_answer
    (srv : vizier) (self : GaiaAstrometry) (s : run_state) :
  srv (List.length (queries s)) (gaia_request self) = [] ->
  query_gaia_astrom srv self s
  = (Raise TypeError,
     mk_state (stdout s) (queries s ++ [gaia_request self]) (files s)).
Proof.
  intros Hempty. rewrite query_gaia_astrom_outcome. cbv zeta.
  rewrite Hempty. reflexivity.
Qed.

(** C7 at the failing input: a box around (10, -30) without sources. *)
Lemma gaia_query_witness :
  query_gaia_astrom (fun _ _ => [])
    (GaiaAstrometry_init (10%R, (-30)%R) 18%R) Scenarios.empty_run
  = (Raise TypeError,
     mk_state []
       [gaia_request (GaiaAstrometry_init (10%R, (-30)%R) 18%R)] []).
Proof.
  apply (gaia_query_raises_on_empty_answer (fun _ _ => [])
           (GaiaAstrometry_init (10%R, (-30)%R) 18%R) Scenarios.empty_run).
  reflexivity.
Defined.

(** X6: past the constructor, an unrecognised catalogue name ends the run: the
    query that follows the two-line report raises an [AttributeError], in
    the first pass of the loop, and no field is processed. *)
Theorem unrecognised_catalog_ends_run
    (srv : vizier) (args : arguments) (c : center)
    (t_centers : list center) (s : run_state) :
  clobber args = true ->
  resolve_alias (catname args) = None ->
  main srv args (c :: t_centers) s
  = (Raise (AttributeError "catID"),
     mk_state
       (stdout s
          ++ [Print "Catalog name not recognized! Available catalogs:";
              Print "Gaia, APASS, PS1"])
       (queries s) (files s)).
Proof.
  intros Hclobber Hname.
  unfold main. cbn [for_each]. unfold bind at 1. unfold bind at 1.
  unfold process_filter at 1. rewrite Hclobber. cbn [negb].
  unfold bind at 1. unfold ret at 1. unfold bind at 1.
  rewrite PhotoCatalog_init_resolves, Hname.
  unfold bind at 1. unfold query_twice. unfold bind at 1.
  rewrite query_unrecognised by reflexivity. reflexivity.
Qed.

(** X6 for the catalogue name 2MASS. *)
Lemma unrecognised_catalog_witness :
  main (fun _ _ => [])
    (mk_arguments "2MASS" "catalogs_photometry" 18%R 5%float true false)
    [Scenarios.example_center] Scenarios.empty_run
  = (Raise (AttributeError "catID"),
     mk_state
       [Print "Catalog name not recognized! Available catalogs:";
        Print "Gaia, APASS, PS1"]
       [] []).
Proof.
  apply (unrecognised_catalog_ends_run (fun _ _ => [])
           (mk_arguments "2MASS" "catalogs_photometry" 18%R 5%float true
              false)
           Scenarios.example_center [] Scenarios.empty_run);
    reflexivity.
Defined.

End CatalogProps.

(* ====================================================================== *)
(** * Properties of the target-list drivers *)
(* ====================================================================== *)

Module TargetProps.
Import Py TargetDrivers.
Local Open Scope string_scope.

(** ** Membership in the list [done] *)

Lemma in_list_app (x : string) (xs ys : list string) :
  in_list x (xs ++ ys) = in_list x xs || in_list x ys.
Proof. unfold in_list. apply existsb_app. Qed.

Lemma in_list_In (x : string) (xs : list string) :
  in_list x xs = true <-> In x xs.
Proof.
  unfold in_list. rewrite existsb_exists. split.
  - intros (y & Hy & Hxy). apply String.eqb_eq in Hxy. subst y. exact Hy.
  - intros Hx. exists x. split; [exact Hx | apply String.eqb_refl].
Qed.

(** ** The loop handles the first row of every name *)

(** The loop with [done] does what a plain loop over the first rows does,
    as long as [done] and the names met so far have the same members. *)
Lemma iterate_first_rows_from step (t : list target) :
  forall done earlier s,
    (forall n, in_list n done = in_list n earlier) ->
    iterate step done t s = for_each (first_rows_from earlier t) step s.
Proof.
  induction t as [| t_field rest IH]; intros done earlier s Hsame.
  - reflexivity.
  - cbn [iterate first_rows_from]. rewrite <- (Hsame (objectName t_field)).
    destruct (in_list (objectName t_field) done) eqn:Hdone.
    + apply IH. intros n. rewrite in_list_app, <- Hsame.
      cbn [in_list existsb]. rewrite orb_false_r.
      destruct (String.eqb_spec n (objectName t_field)) as [-> | Hn].
      * rewrite Hdone. reflexivity.
      * rewrite orb_false_r. reflexivity.
    + cbn [for_each]. unfold bind.
      destruct (step t_field s) as [[[] | e] s1]; [| reflexivity].
      apply IH. intros n. rewrite !in_list_app, Hsame. reflexivity.
Qed.

(** No first row carries a name met before, and no two carry the same. *)
Lemma first_rows_from_fresh (t : list target) :
  forall earlier,
    NoDup (map objectName (first_rows_from earlier t))
    /\ (forall r, In r (first_rows_from earlier t) ->
                  ~ In (objectName r) earlier).
Proof.
  induction t as [| t_field rest IH]; intros earlier.
  - split; [constructor | intros r []].
  - cbn [first_rows_from].
    destruct (IH (earlier ++ [objectName t_field])%list) as [Hnodup Hfresh].
    assert (Hrest : forall r,
               In r (first_rows_from (earlier ++ [objectName t_field]) rest)
               -> ~ In (objectName r) earlier
                  /\ objectName r <> objectName t_field).
    { intros r Hr. specialize (Hfresh r Hr). split.
      - intros Hin. apply Hfresh, in_or_app. left. exact Hin.
      - intros Heq. apply Hfresh, in_or_app. right. left.
        symmetry. exact Heq. }
    destruct (in_list (objectName t_field) earlier) eqn:Hseen.
    + split; [exact Hnodup |]. intros r Hr. apply Hrest, Hr.
    + split.
      * cbn [map]. constructor; [| exact Hnodup].
        intros Hin. apply in_map_iff in Hin.
        destruct Hin as (r & Hname & Hr).
        destruct (Hrest r Hr) as [_ Hneq]. congruence.
      * intros r [<- | Hr].
        -- intros Hin. apply in_list_In in Hin. congruence.
        -- apply Hrest, Hr.
Qed.

(** Where a row stands in the first rows: before it the first rows of the
    rows before it, then the row itself unless its name occurred before,
    then the first rows of the rest. *)
Lemma first_rows_from_app (pre : list target) :
  forall earlier r post,
    first_rows_from earlier (pre ++ r :: post)
    = (first_rows_from earlier pre
         ++ (if in_list (objectName r) (earlier ++ map objectName pre)
             then [] else [r])
         ++ first_rows_from
              (earlier ++ map objectName pre ++ [objectName r]) post)%list.
Proof.
  induction pre as [| p pre IH]; intros earlier r post.
  - cbn [app map first_rows_from]. rewrite app_nil_r.
    destruct (in_list (objectName r) earlier); reflexivity.
  - cbn [app map first_rows_from].
    rewrite (IH (earlier ++ [objectName p])%list r post).
    rewrite <- !app_assoc. cbn [app].
    destruct (in_list (objectName p) earlier); reflexivity.
Qed.

(** ** What a run prints and writes *)

Lemma printed_app (s1 s2 : run_state) :
  printed (s1 ++ s2)%list = (printed s1 ++ printed s2)%list.
Proof. apply flat_map_app. Qed.

Lemma written_app (s1 s2 : run_state) :
  written (s1 ++ s2)%list = (written s1 ++ written s2)%list.
Proof. apply flat_map_app. Qed.

(** A loop over rows with distinct labels leaves distinct labels behind,
    when a step adds its row's label to the observation or adds nothing. *)
Lemma for_each_NoDup (obs : run_state -> list string)
    (label : target -> string) (step : target -> M run_state unit) :
  (forall r s, obs (snd (step r s)) = obs s
               \/ obs (snd (step r s)) = (obs s ++ [label r])%list) ->
  forall l s,
    NoDup (obs s ++ map label l) ->
    NoDup (obs (snd (for_each l step s))).
Proof.
  intros Hstep. induction l as [| r rest IH]; intros s Hnodup.
  - cbn [for_each map] in *. rewrite app_nil_r in Hnodup. exact Hnodup.
  - cbn [for_each map] in *. unfold bind.
    pose proof (Hstep r s) as Hr.
    destruct (step r s) as [[[] | e] s1]; cbn [snd] in *.
    + apply IH. destruct Hr as [-> | ->].
      * apply NoDup_remove_1 in Hnodup. exact Hnodup.
      * rewrite <- app_assoc. exact Hnodup.
    + destruct Hr as [-> | ->].
      * apply NoDup_remove_1, NoDup_app_remove_r in Hnodup. exact Hnodup.
      * change (label r :: map label rest)
          with ([label r] ++ map label rest)%list in Hnodup.
        rewrite app_assoc in Hnodup.
        apply NoDup_app_remove_r in Hnodup. exact Hnodup.
Qed.

Lemma step_ls_observed srv r s :
  printed (snd (step_ls srv r s))
  = (printed s ++ [querying (objectName r)])%list
  /\ (written (snd (step_ls srv r s)) = written s
      \/ written (snd (step_ls srv r s))
         = (written s ++ [outfile_ls (objectName r)])%list).
Proof.
  unfold step_ls, query_coords_ls, bind, emit, modify, lift.
  destruct (qc_query srv _ _) as [text | e]; cbn [snd];
    rewrite ?printed_app, ?written_app; cbn [printed written flat_map app];
    rewrite ?app_nil_r; split; auto.
Qed.

Lemma step_milliquas_observed srv r s :
  printed (snd (step_milliquas srv r s))
  = (printed s ++ [querying (objectName r)])%list
  /\ (written (snd (step_milliquas srv r s)) = written s
      \/ written (snd (step_milliquas srv r s))
         = (written s ++ [outfile_milliquas (objectName r)])%list).
Proof.
  unfold step_milliquas, query_vizier, bind, emit, modify, lift.
  destruct (list_get _ 0) as [text | e]; cbn [snd];
    rewrite ?printed_app, ?written_app; cbn [printed written flat_map app];
    rewrite ?app_nil_r; split; auto.
Qed.

(** ** Names and file names *)

Lemma append_length (s1 s2 : string) :
  String.length (s1 ++ s2) = (String.length s1 + String.length s2)%nat.
Proof.
  induction s1 as [| c s1 IH]; cbn; [reflexivity | rewrite IH; reflexivity].
Qed.

Lemma append_cancel_r (s1 s2 tail : string) :
  s1 ++ tail = s2 ++ tail -> s1 = s2.
Proof.
  revert s2. induction s1 as [| a s1 IH]; intros s2 H.
  - destruct s2 as [| b s2]; [reflexivity |].
    apply (f_equal String.length) in H. cbn in H.
    rewrite append_length in H. lia.
  - destruct s2 as [| b s2].
    + apply (f_equal String.length) in H. cbn in H.
      rewrite append_length in H. lia.
    + cbn in H. injection H as -> H. f_equal. apply IH, H.
Qed.

Lemma outfile_ls_injective : Injective outfile_ls.
Proof.
  intros n1 n2 H. unfold outfile_ls in H. cbn [append] in H.
  injection H as H. apply append_cancel_r in H. exact H.
Qed.

Lemma outfile_milliquas_injective : Injective outfile_milliquas.
Proof.
  intros n1 n2 H. unfold outfile_milliquas in H. cbn [append] in H.
  injection H as H. apply append_cancel_r in H. exact H.
Qed.

Lemma querying_injective : Injective querying.
Proof.
  intros n1 n2 H. unfold querying in H. cbn [append] in H.
  injection H as H. exact H.
Qed.

(** A run from the start prints every "Querying" line and writes every
    file at most once, for any step that behaves like the two drivers'. *)
Lemma run_distinct (step : target -> M run_state unit)
    (outfile : string -> string) (t : list target) :
  Injective outfile ->
  (forall r s,
      printed (snd (step r s))
      = (printed s ++ [querying (objectName r)])%list
      /\ (written (snd (step r s)) = written s
          \/ written (snd (step r s))
             = (written s ++ [outfile (objectName r)])%list)) ->
  NoDup (printed (snd (iterate step [] t [])))
  /\ NoDup (written (snd (iterate step [] t []))).
Proof.
  intros Hinj Hstep.
  rewrite (iterate_first_rows_from step t [] [] []) by reflexivity.
  destruct (first_rows_from_fresh t []) as [Hnames _].
  split.
  - apply (for_each_NoDup printed (fun r => querying (objectName r))).
    + intros r s. right. apply Hstep.
    + cbn [printed flat_map app].
      rewrite <- (map_map objectName querying).
      apply Injective_map_NoDup; [apply querying_injective |].
      exact Hnames.
  - apply (for_each_NoDup written (fun r => outfile (objectName r))).
    + intros r s. apply Hstep.
    + cbn [written flat_map app].
      rewrite <- (map_map objectName outfile).
      apply Injective_map_NoDup; assumption.
Qed.

(** C10: in both drivers the rows handled are the first rows of their
    names: no two handled rows share a name, a row whose name occurs in an
    earlier row is left out, and the loop does what a plain loop over the
    handled rows does (up to the first exception).  In a run from the
    start, "Querying <name>" is printed and the output file of a name is
    written at most once. *)
Theorem each_object_handled_once (srv : services) (t : list target) :
  let handled := first_rows t in
  NoDup (map objectName handled)
  /\ (forall pre r post,
         t = (pre ++ r :: post)%list ->
         In (objectName r) (map objectName pre) ->
         handled
         = (first_rows pre
              ++ first_rows_from (map objectName pre ++ [objectName r])
                   post)%list)
  /\ (forall s, main_ls srv t s = for_each handled (step_ls srv) s)
  /\ (forall s,
         main_milliquas srv t s = for_each handled (step_milliquas srv) s)
  /\ (forall name,
         (count_occ string_dec (printed (snd (main_ls srv t [])))
            (querying name) <= 1)%nat
         /\ (count_occ string_dec (written (snd (main_ls srv t [])))
               (outfile_ls name) <= 1)%nat)
  /\ (forall name,
         (count_occ string_dec (printed (snd (main_milliquas srv t [])))
            (querying name) <= 1)%nat
         /\ (count_occ string_dec (written (snd (main_milliquas srv t [])))
               (outfile_milliquas name) <= 1)%nat).
Proof.
  intros handled. subst handled. unfold first_rows.
  split; [apply first_rows_from_fresh |].
  split.
  { intros pre r post -> Hseen.
    rewrite (first_rows_from_app pre [] r post). cbn [app].
    apply in_list_In in Hseen. rewrite Hseen. reflexivity. }
  split.
  { intros s. apply iterate_first_rows_from. reflexivity. }
  split.
  { intros s. apply iterate_first_rows_from. reflexivity. }
  split; intros name.
  - destruct (run_distinct (step_ls srv) outfile_ls t outfile_ls_injective
                (step_ls_observed srv)) as [Hp Hw].
    split; apply NoDup_count_occ; assumption.
  - destruct (run_distinct (step_milliquas srv) outfile_milliquas t
                outfile_milliquas_injective (step_milliquas_observed srv))
      as [Hp Hw].
    split; apply NoDup_count_occ; assumption.
Qed.

End TargetProps.

(* ====================================================================== *)
(** * More on the geometry of the box *)
(* ====================================================================== *)

Module BoxGeometry.
Import Py Downloader BoundingBox.
Local Open Scope R_scope.

(** Between two declinations the cosine is at least the smaller of the
    cosines at the ends. *)
Lemma costerm_le_cos (dmin dmax d : R) :
  -90 <= dmin -> dmax <= 90 -> dmin <= d <= dmax ->
  costerm dmin dmax <= cos (d * PI / 180).
Proof.
  intros Hlo Hhi [Hd1 Hd2]. pose proof PI_RGT_0 as Hpi. unfold costerm.
  destruct (Rle_dec 0 d) as [Hpos | Hneg].
  - eapply Rle_trans; [apply Rmin_r |].
    apply cos_decr_1; nra.
  - eapply Rle_trans; [apply Rmin_l |].
    rewrite <- (cos_neg (dmin * PI / 180)), <- (cos_neg (d * PI / 180)).
    apply cos_decr_1; nra.
Qed.

(** X7: away from the poles the half-width of the right-ascension window
    is the radius over the cosine term of the returned declination bounds,
    and at every declination [d] of the box it is at least [r / cos d]:
    the box is nowhere narrower than the search circle needs. *)
Theorem box_never_too_narrow (RA DEC r d : R) :
  0 <= r -> -90 < DEC - r -> DEC + r < 90 ->
  let b := get_radec_maxmin RA DEC r in
  let w := r / costerm (dec_min b) (dec_max b) in
  dec_min b <= d <= dec_max b ->
  0 < cos (d * PI / 180)
  /\ r / cos (d * PI / 180) <= w
  /\ ra_min b = wrap_below (RA - w)
  /\ ra_max b = wrap_above (RA + w).
Proof.
  intros Hr Hlo Hhi b w Hd. subst w b.
  rewrite dec_min_eq, dec_max_eq in *.
  assert (Hmin : (if Rltb (DEC - r) (-90) then -90 else DEC - r) = DEC - r)
    by (decide_R; lra).
  assert (Hmax : (if Rgtb (DEC + r) 90 then 90 else DEC + r) = DEC + r)
    by (decide_R; lra).
  rewrite Hmin, Hmax in *.
  assert (Hc : 0 < costerm (DEC - r) (DEC + r))
    by (apply costerm_pos; lra).
  assert (Hle : costerm (DEC - r) (DEC + r) <= cos (d * PI / 180))
    by (apply costerm_le_cos; lra).
  split; [lra |]. split.
  - unfold Rdiv. apply Rmult_le_compat_l; [exact Hr |].
    apply Rinv_le_contravar; assumption.
  - apply nonpolar_box; lra.
Qed.

(** X7 at the centre (10, 40) with radius 1 and the declination 40.5. *)
Lemma box_never_too_narrow_witness :
  0 < cos (81 / 2 * PI / 180)
  /\ 1 / cos (81 / 2 * PI / 180)
     <= 1 / costerm (dec_min (get_radec_maxmin 10 40 1))
              (dec_max (get_radec_maxmin 10 40 1)).
Proof.
  destruct (box_never_too_narrow 10 40 1 (81 / 2)) as (H1 & H2 & _);
    [lra | lra | lra | | split; assumption].
  rewrite dec_min_eq, dec_max_eq. decide_R; lra.
Defined.

(** X8: for a valid centre, a positive radius and a window of half-width
    below 180 away from the poles, a range that passes the test
    [ra_min <= ra_max] is the window itself, unwrapped:
    [ra_min = RA - w] and [ra_max = RA + w]; the box then holds the centre
    in both coordinates. *)
Theorem ordered_narrow_range_is_exact (RA DEC r : R) :
  0 <= RA < 360 -> 0 < r -> -90 < DEC - r -> DEC + r < 90 ->
  let b := get_radec_maxmin RA DEC r in
  let w := r / costerm (DEC - r) (DEC + r) in
  w < 180 ->
  ra_min b <= ra_max b ->
  ra_min b = RA - w /\ ra_max b = RA + w
  /\ ra_min b <= RA <= ra_max b
  /\ dec_min b <= DEC <= dec_max b.
Proof.
  intros HRA Hr Hlo Hhi b w Hnarrow Hord.
  assert (Hw : 0 < w).
  { unfold w. apply Rdiv_lt_0_compat; [assumption |].
    apply costerm_pos; lra. }
  destruct (nonpolar_box RA DEC r) as [Hmin Hmax]; [lra | lra |].
  fold b w in Hmin, Hmax.
  assert (Hdmin : dec_min b = DEC - r)
    by (subst b; rewrite dec_min_eq; decide_R; lra).
  assert (Hdmax : dec_max b = DEC + r)
    by (subst b; rewrite dec_max_eq; decide_R; lra).
  rewrite Hmin, Hmax in Hord |- *. rewrite Hdmin, Hdmax.
  unfold wrap_below, wrap_above in *.
  decide_R; repeat split; lra.
Qed.

(** X8 at the centre (10, 0) with radius 1. *)
Lemma ordered_narrow_range_witness :
  ra_min (get_radec_maxmin 10 0 1) = 10 - 1 / costerm (0 - 1) (0 + 1)
  /\ ra_max (get_radec_maxmin 10 0 1) = 10 + 1 / costerm (0 - 1) (0 + 1).
Proof.
  assert (Hw : 1 <= 1 / costerm (0 - 1) (0 + 1) < 2 * 1)
    by (apply halfwidth_bounds; lra).
  destruct (ordered_narrow_range_is_exact 10 0 1) as (H1 & H2 & _);
    [lra | lra | lra | lra | lra | | split; assumption].
  destruct (nonpolar_box 10 0 1) as [Hmin Hmax]; [lra | lra |].
  rewrite Hmin, Hmax. unfold wrap_below, wrap_above. decide_R; lra.
Defined.

(** The bound 180 matters: with a half-width between 180 and 360 the
    range can be ordered and miss the centre.  Centre (10, 0), radius 75. *)
Lemma wide_window_misses_centre :
  ra_min (get_radec_maxmin 10 0 75) <= ra_max (get_radec_maxmin 10 0 75)
  /\ 10 < ra_min (get_radec_maxmin 10 0 75).
Proof.
  pose proof PI_RGT_0 as Hpi. pose proof PI_4 as Hpi4.
  destruct (nonpolar_box 10 0 75) as [Hmin Hmax]; [lra | lra |].
  rewrite Hmin, Hmax.
  assert (Hc : 1 / 4 <= costerm (0 - 75) (0 + 75) < 1 / 3).
  { unfold costerm.
    replace ((0 - 75) * PI / 180) with (- ((0 + 75) * PI / 180)) by lra.
    rewrite cos_neg, Rmin_left by lra.
    replace ((0 + 75) * PI / 180) with (PI / 2 - PI / 12) by lra.
    rewrite cos_shift.
    assert (Hsin : 0 < sin (PI / 12)) by (apply sin_gt_0; lra).
    split.
    - pose proof (sin_2a (PI / 12)) as H2.
      replace (2 * (PI / 12)) with (PI / 6) in H2 by lra.
      rewrite sin_PI6 in H2.
      pose proof (COS_bound (PI / 12)) as [_ Hcos]. nra.
    - apply Rlt_le_trans with (PI / 12); [apply sin_lt_x; lra | lra]. }
  set (c := costerm (0 - 75) (0 + 75)) in *.
  assert (Hw : 225 < 75 / c <= 300).
  { split.
    - apply Rmult_lt_reg_r with c; [lra |].
      unfold Rdiv. rewrite Rmult_assoc, Rinv_l by lra. lra.
    - apply Rmult_le_reg_r with c; [lra |].
      unfold Rdiv. rewrite Rmult_assoc, Rinv_l by lra. lra. }
  unfold wrap_below, wrap_above. decide_R; lra.
Qed.

End BoxGeometry.

(* ====================================================================== *)
(** * What a downloader run sends *)
(* ====================================================================== *)

Module DownloaderTrace.
Import Py Downloader BoundingBox.
Local Open Scope string_scope.

Section Extends.
Variable P : event -> Prop.

Lemma extends_refl s : extends P s s.
Proof. exists []. split; [rewrite app_nil_r; reflexivity | constructor]. Qed.

Lemma extends_trans s1 s2 s3 :
  extends P s1 s2 -> extends P s2 s3 -> extends P s1 s3.
Proof.
  intros (e1 & H1 & F1) (e2 & H2 & F2). exists (e1 ++ e2)%list. split.
  - rewrite H2, H1, app_assoc. reflexivity.
  - apply Forall_app. split; assumption.
Qed.

Lemma extends_emit e s : P e -> extends P s (snd (emit e s)).
Proof.
  intros He. exists [e]. split; [reflexivity | repeat constructor; exact He].
Qed.

Lemma extends_bind {A B} (m : M run_state A) (k : A -> M run_state B) s :
  extends P s (snd (m s)) ->
  (forall a s1, extends P s1 (snd (k a s1))) ->
  extends P s (snd (bind m k s)).
Proof.
  intros Hm Hk. unfold bind.
  destruct (m s) as [[a | e] s1]; cbn [snd] in *; [| exact Hm].
  eapply extends_trans; [exact Hm | apply Hk].
Qed.

Lemma extends_for_each {A} (body : A -> M run_state unit) (xs : list A) :
  (forall x s, extends P s (snd (body x s))) ->
  forall s, extends P s (snd (for_each xs body s)).
Proof.
  intros Hbody. induction xs as [| x rest IH]; intros s.
  - apply extends_refl.
  - cbn [for_each]. apply extends_bind; [apply Hbody |].
    intros _ s1. apply IH.
Qed.

End Extends.

(** The declination bounds never leave the sphere. *)
Lemma dec_bounds_on_sphere (RA DEC r : R) :
  (-90 <= dec_min (get_radec_maxmin RA DEC r))%R
  /\ (dec_max (get_radec_maxmin RA DEC r) <= 90)%R.
Proof. rewrite dec_min_eq, dec_max_eq. decide_R; lra. Qed.

Lemma extends_set_token P v s : extends P s (snd (set_token v s)).
Proof.
  exists []. split; [cbn; rewrite app_nil_r; reflexivity | constructor].
Qed.

Lemma extends_read_token P s : extends P s (snd (read_token s)).
Proof. unfold read_token. destruct (token s); apply extends_refl. Qed.

Lemma download_file_allowed srv opts centers row out_path s :
  do_not_download opts = false ->
  extends (allowed_event opts centers) s
    (snd (download_file srv opts row out_path s)).
Proof.
  intros Hon. unfold download_file.
  apply extends_bind; [apply extends_emit; exact Hon |].
  intros _ s1. destruct (Z.eqb _ 200).
  - apply extends_bind; [apply extends_refl |].
    intros tok s2. apply extends_bind; [apply extends_set_token |].
    intros _ s3. apply extends_bind; [apply extends_emit; exact Hon |].
    intros _ s4. destruct (Z.eqb _ 200).
    + apply extends_emit. exact Hon.
    + repeat (apply extends_bind; [apply extends_refl | intros ? ?]).
      apply extends_refl.
  - apply extends_bind; [apply extends_read_token |].
    intros tok s2.
    apply extends_bind; [apply extends_refl | intros ? ?].
    apply extends_refl.
Qed.

Lemma process_row_allowed srv opts centers ccd row s :
  extends (allowed_event opts centers) s
    (snd (process_row srv opts ccd row s)).
Proof.
  unfold process_row.
  destruct (in_list _ _); [| apply extends_refl].
  apply extends_bind.
  - unfold lift. cbn [snd]. apply extends_refl.
  - intros out_path s1. apply extends_bind.
    + unfold makedirs_. destruct (String.eqb _ _).
      * apply extends_refl.
      * apply extends_emit. exact I.
    + intros _ s2. destruct (do_not_download opts) eqn:Hdry.
      * apply extends_refl.
      * apply download_file_allowed. exact Hdry.
Qed.

Lemma query_archive_allowed srv opts centers c s :
  In c centers -> field c = pointing_name opts ->
  extends (allowed_event opts centers) s
    (snd (query_archive srv opts
            (get_radec_maxmin (RAdeg c) (DECdeg c) (search_radius_deg opts))
            s)).
Proof.
  intros Hin Hfield. unfold query_archive.
  set (box := get_radec_maxmin (RAdeg c) (DECdeg c) (search_radius_deg opts)).
  destruct (Rgtb (ra_min box) (ra_max box)) eqn:Hgt.
  - apply extends_refl.
  - apply extends_bind; [| intros _ s1; apply extends_refl].
    apply extends_emit. exists c.
    split; [exact Hin | split; [exact Hfield |]].
    cbv zeta. fold box. split; [reflexivity |].
    destruct (Rle_dec (ra_min box) (ra_max box)) as [Hle | Hnle];
      [exact Hle |].
    assert (Hinv : (ra_min box > ra_max box)%R) by lra.
    apply Rgtb_true in Hinv. congruence.
Qed.

Lemma process_ccd_allowed srv opts centers selectedfield ii s :
  (forall c, In c selectedfield ->
             In c centers /\ field c = pointing_name opts) ->
  extends (allowed_event opts centers) s
    (snd (process_ccd srv opts selectedfield ii s)).
Proof.
  intros Hsel. unfold process_ccd. unfold bind at 1. unfold lift at 1.
  destruct (list_get selectedfield ii) as [c | e] eqn:Hget;
    [| apply extends_refl].
  assert (Hc : In c selectedfield).
  { unfold list_get in Hget.
    destruct (nth_error selectedfield ii) as [c' |] eqn:Hnth;
      [| discriminate].
    injection Hget as <-. exact (nth_error_In _ _ Hnth). }
  destruct (Hsel c Hc) as [Hin Hfield].
  apply extends_bind.
  - apply query_archive_allowed; assumption.
  - intros ads_df s2. apply extends_bind.
    + destruct ads_df; apply extends_refl.
    + intros _ s3. apply extends_for_each.
      intros row s4. apply process_row_allowed.
Qed.

Lemma run_allowed srv opts field_centers s :
  extends (allowed_event opts field_centers) s
    (snd (KNTraP_download_ccdbyccd srv opts field_centers s)).
Proof.
  unfold KNTraP_download_ccdbyccd. apply extends_for_each.
  intros ii s1. apply process_ccd_allowed.
  intros c Hc. apply filter_In in Hc. destruct Hc as [Hin Hname].
  split; [exact Hin | apply String.eqb_eq, Hname].
Qed.

(** For a centre between the poles and a radius that is not negative the
    declination bounds are ordered and both lie between the poles. *)
Lemma dec_bounds_ordered (RA DEC r : R) :
  (0 <= r)%R -> (-90 <= DEC <= 90)%R ->
  (-90 <= dec_min (get_radec_maxmin RA DEC r)
   <= dec_max (get_radec_maxmin RA DEC r))%R
  /\ (dec_max (get_radec_maxmin RA DEC r) <= 90)%R.
Proof. intros Hr HDEC. rewrite dec_min_eq, dec_max_eq. decide_R; lra. Qed.

(** X9: whatever the archive answers and wherever the run stops, every
    search a run posts is built from the box of one row [c] of the
    field-centers table that carries the pointing name: it holds the four
    fixed constraints followed by the right-ascension range of the box,
    with low <= high, the declination range of the box, whose low end is
    at least -90 and whose high end is at most 90, and the night as both
    ends of the [caldat] range.  When the radius is not negative and the
    declination of [c] lies in [-90, 90], the declination range is
    ordered and both its ends lie in [-90, 90]; the table is not
    checked, and for a row outside that range the low end can exceed
    90. *)
Theorem run_posts_only_sound_queries
    (srv : archive) (opts : options) (field_centers : list field_center)
    (s : run_state) :
  exists evs,
    trace (snd (KNTraP_download_ccdbyccd srv opts field_centers s))
    = (trace s ++ evs)%list
    /\ forall jj, In (SearchPost jj) evs ->
                  exists c,
                    In c field_centers /\ field c = pointing_name opts
                    /\ let box :=
                         get_radec_maxmin (RAdeg c) (DECdeg c)
                           (search_radius_deg opts) in
                       search jj
                       = ([Exact "instrument" "decam";
                           Exact "telescope" "ct4m";
                           Exact "obs_type" "object";
                           Exact "proc_type" "stacked";
                           RangeNum "ra_center" (ra_min box) (ra_max box);
                           RangeNum "dec_center" (dec_min box) (dec_max box);
                           RangeStr "caldat" (caldat opts) (caldat opts)])
                       /\ (ra_min box <= ra_max box)%R
                       /\ (-90 <= dec_min box)%R /\ (dec_max box <= 90)%R
                       /\ ((0 <= search_radius_deg opts)%R ->
                           (-90 <= DECdeg c <= 90)%R ->
                           (-90 <= dec_min box <= dec_max box)%R
                           /\ (dec_max box <= 90)%R).
Proof.
  destruct (run_allowed srv opts field_centers s) as (evs & Htrace & Hall).
  exists evs. split; [exact Htrace |].
  intros jj Hin. rewrite Forall_forall in Hall.
  destruct (Hall _ Hin) as (c & Hc & Hfield & -> & Hra).
  exists c. split; [exact Hc | split; [exact Hfield |]].
  cbv zeta. split; [reflexivity |]. split; [exact Hra |].
  pose proof (dec_bounds_on_sphere (RAdeg c) (DECdeg c)
                (search_radius_deg opts)) as [Hlo Hhi].
  split; [exact Hlo | split; [exact Hhi |]].
  apply dec_bounds_ordered.
Qed.

(** A row of the table outside the sphere is not refused: for a centre
    at declination 100 and the default radius the declination range
    posted would be inverted, from 99.99 to 90. *)
Lemma dec_range_inverted_off_sphere :
  dec_min (get_radec_maxmin 10 100 (1 / 100)) = (100 - 1 / 100)%R
  /\ dec_max (get_radec_maxmin 10 100 (1 / 100)) = 90%R.
Proof. rewrite dec_min_eq, dec_max_eq. decide_R; split; lra. Qed.

(** X10: with [do_not_download] set, a run asks for no token, requests no
    file and writes nothing: all it does is post searches and make the
    directories of the products it lists. *)
Theorem dry_run_stays_local
    (srv : archive) (opts : options) (field_centers : list field_center)
    (s : run_state) :
  do_not_download opts = true ->
  exists evs,
    trace (snd (KNTraP_download_ccdbyccd srv opts field_centers s))
    = (trace s ++ evs)%list
    /\ forall e, In e evs ->
                 (exists jj, e = SearchPost jj)
                 \/ (exists dir, e = Makedirs dir).
Proof.
  intros Hdry.
  destruct (run_allowed srv opts field_centers s) as (evs & Htrace & Hall).
  exists evs. split; [exact Htrace |].
  intros e Hin. rewrite Forall_forall in Hall. specialize (Hall e Hin).
  destruct e; cbn in Hall; try congruence;
    [left | right]; eexists; reflexivity.
Qed.

(** X10 for the dry run of the usage example on three field centres. *)
Lemma dry_run_witness :
  exists evs,
    trace (snd (KNTraP_download_ccdbyccd Scenarios.granting_archive
                  Scenarios.dry_options Scenarios.polar_centers init_state))
    = ([] ++ evs)%list
    /\ forall e, In e evs ->
                 (exists jj, e = SearchPost jj)
                 \/ (exists dir, e = Makedirs dir).
Proof.
  apply (dry_run_stays_local Scenarios.granting_archive
           Scenarios.dry_options Scenarios.polar_centers init_state).
  reflexivity.
Defined.

(** ** Runs that end early *)

(** X11: when the archive lists nothing for the first CCD of the pointing
    (its answer holds at most the leading row that the run discards), the
    run stops there with a [KeyError] on [archive_filename], after that
    one search: the other CCDs are not queried. *)
Theorem empty_answer_aborts_run
    (srv : archive) (opts : options) (field_centers : list field_center)
    (c : field_center) (rest : list field_center) (s : run_state) :
  List.filter (fun c => String.eqb (field c) (pointing_name opts))
    field_centers = c :: rest ->
  let box :=
    get_radec_maxmin (RAdeg c) (DECdeg c) (search_radius_deg opts) in
  (ra_min box <= ra_max box)%R ->
  tl (adv_search srv (query_of_box opts box)) = [] ->
  KNTraP_download_ccdbyccd srv opts field_centers s
  = (Raise (KeyError "archive_filename"),
     mk_state (trace s ++ [SearchPost (query_of_box opts box)]) (token s)).
Proof.
  intros Hsel box Hord Hempty.
  assert (Hccd : process_ccd srv opts (c :: rest) 0 s
                 = (Raise (KeyError "archive_filename"),
                    mk_state (trace s ++ [SearchPost (query_of_box opts box)])
                      (token s))).
  { unfold process_ccd, bind, lift. cbn [list_get nth_error].
    fold box. unfold query_archive.
    destruct (Rgtb (ra_min box) (ra_max box)) eqn:Hgt.
    - apply Rgtb_true in Hgt. lra.
    - unfold bind, emit, modify, ret. fold (query_of_box opts box).
      rewrite Hempty. reflexivity. }
  unfold KNTraP_download_ccdbyccd. rewrite Hsel.
  destruct (debugmode opts); cbn [List.length seq for_each];
    unfold bind at 1; rewrite Hccd; reflexivity.
Qed.

(** X11 near the pole, where the range is 0 to 360. *)
Lemma empty_answer_witness :
  exists jj,
    KNTraP_download_ccdbyccd Scenarios.granting_archive
      Scenarios.example_options Scenarios.polar_centers init_state
    = (Raise (KeyError "archive_filename"), mk_state [SearchPost jj] None).
Proof.
  eexists.
  apply (empty_answer_aborts_run Scenarios.granting_archive
           Scenarios.example_options Scenarios.polar_centers
           (mk_center "S82sub8" (KInt 1) 10 90)
           [mk_center "S82sub8" (KInt 2) 11 90] init_state).
  - reflexivity.
  - cbn [RAdeg DECdeg].
    destruct (polar_box 10 90
                (search_radius_deg Scenarios.example_options))
      as [Hmin Hmax].
    + right. unfold Scenarios.example_options. cbn [search_radius_deg]. lra.
    + rewrite Hmin, Hmax. lra.
  - reflexivity.
Defined.

Lemma filter_none {A} (f : A -> bool) (l : list A) :
  (forall x, In x l -> f x = false) -> List.filter f l = [].
Proof.
  induction l as [| x l IH]; intros H; [reflexivity |].
  cbn [List.filter]. rewrite (H x (or_introl eq_refl)).
  apply IH. intros y Hy. apply H. right. exact Hy.
Qed.

(** X12: for a pointing name that the field-centers table does not hold,
    a run sends nothing: it ends normally, and in debug mode (which always
    takes the first two CCDs) with an [IndexError]. *)
Theorem unknown_pointing_sends_nothing
    (srv : archive) (opts : options) (field_centers : list field_center)
    (s : run_state) :
  (forall c, In c field_centers -> field c <> pointing_name opts) ->
  KNTraP_download_ccdbyccd srv opts field_centers s
  = (if debugmode opts then Raise IndexError else Ok tt, s).
Proof.
  intros Hnone. unfold KNTraP_download_ccdbyccd.
  rewrite filter_none.
  - destruct (debugmode opts); reflexivity.
  - intros c Hc. apply String.eqb_neq. apply Hnone, Hc.
Qed.

(** X12 for a table that holds other pointings only. *)
Lemma unknown_pointing_witness :
  KNTraP_download_ccdbyccd Scenarios.granting_archive
    Scenarios.example_options
    [mk_center "353A" (KInt 1) 200 (-45); mk_center "353A" (KInt 2) 201 (-45)]
    init_state
  = (Ok tt, init_state).
Proof.
  apply (unknown_pointing_sends_nothing Scenarios.granting_archive
           Scenarios.example_options
           [mk_center "353A" (KInt 1) 200 (-45);
            mk_center "353A" (KInt 2) 201 (-45)] init_state).
  intros c [<- | [<- | []]]; cbn; discriminate.
Defined.

End DownloaderTrace.

(* ====================================================================== *)
(** * Paths and downloads *)
(* ====================================================================== *)

Module PathProps.
Import Py Downloader DownloaderRun.
Local Open Scope string_scope.

Lemma split_char_nonempty (c : ascii) (s : string) : split_char c s <> [].
Proof.
  destruct s as [| d rest]; cbn [split_char]; [discriminate |].
  destruct (Ascii.eqb d c); [discriminate |].
  destruct (split_char c rest); discriminate.
Qed.

(** Splitting at [c] a text with a [c] in the middle gives the pieces of
    what is before followed by the pieces of what is after. *)
Lemma split_char_app (c : ascii) (a b : string) :
  split_char c (a ++ String c b) = (split_char c a ++ split_char c b)%list.
Proof.
  induction a as [| d a IH]; cbn [append split_char].
  - rewrite Ascii.eqb_refl. reflexivity.
  - destruct (Ascii.eqb d c).
    + rewrite IH. reflexivity.
    + rewrite IH. pose proof (split_char_nonempty c a) as Hne.
      destruct (split_char c a); [congruence | reflexivity].
Qed.

Lemma split_char_absent (c : ascii) (s : string) :
  has_char c s = false -> split_char c s = [s].
Proof.
  induction s as [| d rest IH]; cbn [has_char split_char]; [reflexivity |].
  intros H. apply orb_false_iff in H. destruct H as [Hd Hrest].
  rewrite Hd, (IH Hrest). reflexivity.
Qed.

(** Joining the pieces with the separator gives the text back. *)
Lemma join_split_char (c : ascii) (s : string) :
  join (String c EmptyString) (split_char c s) = s.
Proof.
  unfold join. induction s as [| d rest IH]; [reflexivity |].
  cbn [split_char]. destruct (Ascii.eqb_spec d c) as [-> | Hd].
  - pose proof (split_char_nonempty c rest) as Hne.
    destruct (split_char c rest) as [| p ps] eqn:Hs; [congruence |].
    destruct ps as [| q qs]; cbn [String.concat append] in *;
      rewrite <- IH; reflexivity.
  - pose proof (split_char_nonempty c rest) as Hne.
    destruct (split_char c rest) as [| p ps] eqn:Hs; [congruence |].
    destruct ps as [| q qs]; cbn [String.concat append] in *;
      rewrite <- IH; reflexivity.
Qed.

(** The parent of [dir/name], for a last component without a slash. *)
Lemma parent_dir_app (dir name : string) :
  has_char "/" name = false ->
  parent_dir (dir ++ "/" ++ name) = dir.
Proof.
  intros Hname. unfold parent_dir, drop_last.
  change (dir ++ "/" ++ name) with (dir ++ String "/" name).
  rewrite split_char_app, (split_char_absent "/" name Hname).
  rewrite removelast_last.
  change "/" with (String "/"%char EmptyString) at 1.
  apply join_split_char.
Qed.

(** A text that holds the separator splits into two pieces at least. *)
Lemma split_char_present (c : ascii) (s : string) :
  has_char c s = true ->
  exists p q qs, split_char c s = p :: q :: qs.
Proof.
  induction s as [| d rest IH]; cbn [has_char split_char]; [discriminate |].
  pose proof (split_char_nonempty c rest) as Hne.
  destruct (Ascii.eqb d c) eqn:Hd; cbn [orb].
  - intros _. destruct (split_char c rest) as [| q qs]; [congruence |].
    exists EmptyString, q, qs. reflexivity.
  - intros Hrest. destruct (IH Hrest) as (p & q & qs & ->).
    exists (String d p), q, qs. reflexivity.
Qed.

(** The parent of a path with a slash before its last slash is not the
    empty path. *)
Lemma parent_dir_nonempty (a b : string) :
  has_char "/" b = true ->
  String.eqb (parent_dir (a ++ String "/" b)) "" = false.
Proof.
  intros Hb. unfold parent_dir, drop_last.
  rewrite split_char_app.
  destruct (split_char_present "/" b Hb) as (p & q & qs & ->).
  pose proof (split_char_nonempty "/" a) as Hne.
  destruct (split_char "/" a) as [| x xs]; [congruence |].
  assert (Hrest : exists y ys,
             removelast ((x :: xs) ++ p :: q :: qs)%list = x :: y :: ys).
  { destruct xs as [| x' xs']; cbn [List.app removelast].
    - exists p. eexists. reflexivity.
    - exists x'. destruct (xs' ++ p :: q :: qs)%list eqn:Hl.
      + destruct xs'; discriminate.
      + eexists. reflexivity. }
  destruct Hrest as (y & ys & ->).
  unfold join. cbn [String.concat].
  destruct x; reflexivity.
Qed.

Lemma str_app_assoc (a b c : string) : (a ++ b) ++ c = a ++ (b ++ c).
Proof.
  induction a as [| d a IH]; cbn [append]; [reflexivity |].
  rewrite IH. reflexivity.
Qed.

(** The directory of a product is never the empty path: [raw_dir] ends
    in a slash and is followed by one. *)
Lemma build_out_path_parent opts ccd row out_path :
  build_out_path opts ccd row = Ok out_path ->
  String.eqb (parent_dir out_path) "" = false.
Proof.
  unfold build_out_path.
  destruct (list_get (split_char " " (ifilter row)) 0) as [band |];
    cbn [and_then]; [| discriminate].
  destruct (ccd_code_lookup ccd) as [ccd_code |];
    cbn [and_then]; [| discriminate].
  destruct (list_last (split_char "/" (archive_filename row)))
    as [base |]; cbn [and_then]; [| discriminate].
  destruct (list_get (split_char "_" base) 3) as [prod_type_code |];
    cbn [and_then]; [| discriminate].
  intros Hpath. injection Hpath as <-.
  rewrite str_app_assoc.
  apply (parent_dir_nonempty (pipedata_dir opts)). reflexivity.
Qed.

(** X13: [makedirs_] makes the parent of the path it is given, or raises
    when there is none.  For a path [dir/name] whose last component [name]
    holds no slash, the directory made is [dir], whatever slashes [dir]
    holds, unless [dir] is empty (the path [/name]): the empty path is
    refused with a [FileNotFoundError] and nothing is made.  The same
    happens for a path [name] without any slash. *)
Theorem makedirs_makes_parent (dir name : string) (s : run_state) :
  has_char "/" name = false ->
  makedirs_ (dir ++ "/" ++ name) s
  = (if String.eqb dir ""
     then (Raise (FileNotFoundError ""), s)
     else (Ok tt, mk_state (trace s ++ [Makedirs dir]) (token s)))
  /\ makedirs_ name s = (Raise (FileNotFoundError ""), s).
Proof.
  intros Hname. split.
  - unfold makedirs_. fold (parent_dir (dir ++ "/" ++ name)).
    rewrite (parent_dir_app dir name Hname).
    destruct (String.eqb_spec dir "") as [-> | Hdir]; reflexivity.
  - unfold makedirs_, drop_last.
    rewrite (split_char_absent "/" name Hname). reflexivity.
Qed.

(** X13 for the path of the usage example, and for the same file name
    with an empty directory and with none. *)
Lemma makedirs_witness :
  makedirs_
    ("/data/raw//S82sub8/1" ++ "/"
       ++ "S82sub8.20210605_image1_g_kfttest_S29.fits.fz") init_state
  = (Ok tt, mk_state [Makedirs "/data/raw//S82sub8/1"] None)
  /\ makedirs_ "/S82sub8.20210605_image1_g_kfttest_S29.fits.fz" init_state
     = (Raise (FileNotFoundError ""), init_state)
  /\ makedirs_ "S82sub8.20210605_image1_g_kfttest_S29.fits.fz" init_state
     = (Raise (FileNotFoundError ""), init_state).
Proof.
  split; [| split].
  - apply (makedirs_makes_parent "/data/raw//S82sub8/1"
             "S82sub8.20210605_image1_g_kfttest_S29.fits.fz" init_state).
    reflexivity.
  - apply (makedirs_makes_parent ""
             "S82sub8.20210605_image1_g_kfttest_S29.fits.fz" init_state).
    reflexivity.
  - apply (makedirs_makes_parent ""
             "S82sub8.20210605_image1_g_kfttest_S29.fits.fz" init_state).
    reflexivity.
Defined.

(** X14: when the token request and the file request are both answered
    with status 200, the body of the file answer is written, as it is, to
    [out_path]; these are the only three events, in this order, and
    [token] holds the answer of the token request afterwards. *)
Theorem accepted_download_writes_content
    (srv : archive) (opts : options) (row : archive_row)
    (out_path : string) (s : run_state) (tok : json_value) :
  let r := get_token srv (username opts) (pw opts) in
  let fileurl := natroot ++ "/api/retrieve/" ++ md5sum row in
  let r2 := retrieve srv fileurl tok in
  status_code r = 200%Z ->
  json_body r = Some tok ->
  status_code r2 = 200%Z ->
  download_file srv opts row out_path s
  = (Ok tt,
     mk_state
       (trace s ++ [TokenPost (username opts) (pw opts);
                    FileGet fileurl tok;
                    FileWrite out_path (content r2)])
       (Some tok)).
Proof.
  intros r fileurl r2 Hstatus Htok Hstatus2.
  apply (download_accepted srv opts row out_path s tok r2);
    auto.
Qed.

(** X14 at an archive that grants both requests. *)
Lemma accepted_download_witness :
  download_file Scenarios.granting_archive Scenarios.example_options
    Scenarios.example_row Scenarios.example_out_path init_state
  = (Ok tt,
     mk_state
       [TokenPost (Some "user") (Some "pw");
        FileGet "https://astroarchive.noirlab.edu/api/retrieve/0123abcd"
          (JStr "token-123");
        FileWrite Scenarios.example_out_path "FITS bytes"]
       (Some (JStr "token-123"))).
Proof.
  apply (accepted_download_writes_content Scenarios.granting_archive
           Scenarios.example_options Scenarios.example_row
           Scenarios.example_out_path init_state (JStr "token-123"));
    reflexivity.
Defined.

(** ** The products of one CCD *)

(** Handling one wanted product that can be saved. *)
Lemma process_row_product srv opts ccd tok row out_path s :
  in_list (prod_type row) (prod_types opts) = true ->
  build_out_path opts ccd row = Ok out_path ->
  (do_not_download opts = false ->
   status_code (get_token srv (username opts) (pw opts)) = 200%Z
   /\ json_body (get_token srv (username opts) (pw opts)) = Some tok
   /\ status_code
        (retrieve srv (natroot ++ "/api/retrieve/" ++ md5sum row) tok)
      = 200%Z) ->
  fst (process_row srv opts ccd row s) = Ok tt
  /\ trace (snd (process_row srv opts ccd row s))
     = (trace s ++ product_events srv opts ccd tok row)%list.
Proof.
  intros Hwanted Hpath Hgranted.
  assert (Hrun : exists tok',
             process_row srv opts ccd row s
             = (Ok tt,
                mk_state (trace s ++ product_events srv opts ccd tok row)
                  tok')).
  { unfold process_row, product_events. rewrite Hwanted, Hpath.
    unfold bind at 1. unfold lift at 1. unfold bind at 1.
    unfold makedirs_. fold (parent_dir out_path).
    rewrite (build_out_path_parent opts ccd row out_path Hpath).
    unfold emit, modify.
    destruct (do_not_download opts) eqn:Hdry.
    - eexists. reflexivity.
    - destruct (Hgranted eq_refl) as (Hs & Hb & Hs2).
      rewrite (download_accepted srv opts row out_path _ tok _ Hs Hb eq_refl
                 Hs2).
      cbn [trace]. rewrite <- app_assoc. eexists. reflexivity. }
  destruct Hrun as [tok' Hrun]. rewrite Hrun. split; reflexivity.
Qed.

(** The loop over the products of one CCD. *)
Lemma process_rows_products srv opts ccd tok (ads : list archive_row) :
  (forall row, In row ads ->
               in_list (prod_type row) (prod_types opts) = true ->
               (exists out_path, build_out_path opts ccd row = Ok out_path)
               /\ (do_not_download opts = false ->
                   status_code (get_token srv (username opts) (pw opts))
                   = 200%Z
                   /\ json_body (get_token srv (username opts) (pw opts))
                      = Some tok
                   /\ status_code
                        (retrieve srv
                           (natroot ++ "/api/retrieve/" ++ md5sum row) tok)
                      = 200%Z)) ->
  forall s,
    fst (for_each ads (process_row srv opts ccd) s) = Ok tt
    /\ trace (snd (for_each ads (process_row srv opts ccd) s))
       = (trace s
            ++ flat_map (product_events srv opts ccd tok)
                 (List.filter
                    (fun row => in_list (prod_type row) (prod_types opts))
                    ads))%list.
Proof.
  induction ads as [| row rest IH]; intros Hall s.
  - cbn. rewrite app_nil_r. split; reflexivity.
  - cbn [for_each List.filter]. unfold bind.
    assert (Hrest : forall row', In row' rest ->
               in_list (prod_type row') (prod_types opts) = true ->
               (exists out_path,
                   build_out_path opts ccd row' = Ok out_path)
               /\ (do_not_download opts = false ->
                   status_code (get_token srv (username opts) (pw opts))
                   = 200%Z
                   /\ json_body (get_token srv (username opts) (pw opts))
                      = Some tok
                   /\ status_code
                        (retrieve srv
                           (natroot ++ "/api/retrieve/" ++ md5sum row') tok)
                      = 200%Z))
      by (intros row' Hin; apply Hall; right; exact Hin).
    destruct (in_list (prod_type row) (prod_types opts)) eqn:Hwanted.
    + destruct (Hall row (or_introl eq_refl) Hwanted) as [[out_path Hp] Hg].
      destruct (process_row_product srv opts ccd tok row out_path s Hwanted
                  Hp Hg) as [Hfst Htrace].
      destruct (process_row srv opts ccd row s) as [[[] | e] s1];
        cbn [fst snd] in *; [| discriminate].
      destruct (IH Hrest s1) as [Hfst' Htrace'].
      split; [exact Hfst' |].
      rewrite Htrace', Htrace. cbn [flat_map]. rewrite <- app_assoc.
      reflexivity.
    + unfold process_row at 1 3. rewrite Hwanted. unfold ret.
      apply (IH Hrest s).
Qed.

Lemma filter_and {A} (f g : A -> bool) (l : list A) :
  List.filter g (List.filter f l) = List.filter (fun x => f x && g x) l.
Proof.
  induction l as [| x l IH]; [reflexivity |].
  cbn [List.filter]. destruct (f x); cbn [andb List.filter];
    rewrite IH; reflexivity.
Qed.

(** X22: one CCD whose products can all be saved.  When the range is
    ordered, the archive lists at least one row, every selected row (file
    name holding the file string, product type wanted) has a CCD code and
    a well-formed file name, and, unless the run is a dry run, the token
    and every selected file are granted, the loop body ends normally and
    its trace is the search followed, for each selected row in the order
    of the answer, by its directory and (unless dry) a token request, the
    file request and the write of the answer to the row's path. *)
Theorem ccd_products_are_saved
    (srv : archive) (opts : options) (selectedfield : list field_center)
    (ii : nat) (c : field_center) (tok : json_value) (s : run_state) :
  list_get selectedfield ii = Ok c ->
  let box :=
    get_radec_maxmin (RAdeg c) (DECdeg c) (search_radius_deg opts) in
  let ads_df := tl (adv_search srv (query_of_box opts box)) in
  (ra_min box <= ra_max box)%R ->
  ads_df <> [] ->
  (forall row, In row (selected_products opts ads_df) ->
               exists out_path,
                 build_out_path opts (ampl c) row = Ok out_path) ->
  (do_not_download opts = false ->
   status_code (get_token srv (username opts) (pw opts)) = 200%Z
   /\ json_body (get_token srv (username opts) (pw opts)) = Some tok
   /\ forall row, In row (selected_products opts ads_df) ->
                  status_code
                    (retrieve srv (natroot ++ "/api/retrieve/" ++ md5sum row)
                       tok) = 200%Z) ->
  fst (process_ccd srv opts selectedfield ii s) = Ok tt
  /\ trace (snd (process_ccd srv opts selectedfield ii s))
     = (trace s
          ++ SearchPost (query_of_box opts box)
          :: flat_map (product_events srv opts (ampl c) tok)
               (selected_products opts ads_df))%list.
Proof.
  intros Hget box ads_df Hord Hne Hpaths Hgranted.
  set (s1 := mk_state (trace s ++ [SearchPost (query_of_box opts box)])
               (token s)).
  assert (Hccd : process_ccd srv opts selectedfield ii s
                 = for_each
                     (List.filter
                        (fun row => file_string_in_x (archive_filename row)
                                      (file_string opts)) ads_df)
                     (process_row srv opts (ampl c)) s1).
  { unfold process_ccd. unfold bind at 1. unfold lift at 1. rewrite Hget.
    fold box. unfold bind at 1. unfold query_archive.
    destruct (Rgtb (ra_min box) (ra_max box)) eqn:Hgt;
      [apply BoundingBox.Rgtb_true in Hgt; lra |].
    fold (query_of_box opts box).
    unfold bind at 1. unfold emit, modify. unfold ret at 1. fold ads_df.
    unfold bind at 1.
    destruct ads_df as [| row0 rest0]; [congruence |]. reflexivity. }
  rewrite Hccd.
  destruct (process_rows_products srv opts (ampl c) tok
              (List.filter
                 (fun row => file_string_in_x (archive_filename row)
                               (file_string opts)) ads_df)) with (s := s1)
    as [Hfst Htrace].
  - intros row Hin Hwanted.
    assert (Hsel : In row (selected_products opts ads_df)).
    { unfold selected_products. apply filter_In.
      apply filter_In in Hin. destruct Hin as [Hin Hfs].
      split; [exact Hin |]. rewrite Hfs, Hwanted. reflexivity. }
    split; [apply Hpaths, Hsel |].
    intros Hdry. destruct (Hgranted Hdry) as (Hs & Hb & Hfiles).
    repeat split; try assumption. apply Hfiles, Hsel.
  - split; [exact Hfst |].
    rewrite Htrace, filter_and. cbn [trace s1].
    rewrite <- app_assoc. reflexivity.
Qed.

(** X22 for a CCD on the pole and an archive that lists three products,
    of which one is selected. *)
Lemma ccd_products_witness :
  exists jj,
    fst (process_ccd Scenarios.listing_archive Scenarios.example_options
           Scenarios.polar_centers 0 init_state) = Ok tt
    /\ trace (snd (process_ccd Scenarios.listing_archive
                     Scenarios.example_options Scenarios.polar_centers 0
                     init_state))
       = [SearchPost jj;
          Makedirs "/data/raw//S82sub8/1";
          TokenPost (Some "user") (Some "pw");
          FileGet "https://astroarchive.noirlab.edu/api/retrieve/0123abcd"
            (JStr "token-123");
          FileWrite Scenarios.example_out_path "FITS bytes"].
Proof.
  eexists.
  apply (ccd_products_are_saved Scenarios.listing_archive
           Scenarios.example_options Scenarios.polar_centers 0
           (mk_center "S82sub8" (KInt 1) 10 90) (JStr "token-123")
           init_state).
  - reflexivity.
  - cbn [RAdeg DECdeg].
    destruct (BoundingBox.polar_box 10 90
                (search_radius_deg Scenarios.example_options))
      as [Hmin Hmax].
    + right. unfold Scenarios.example_options. cbn [search_radius_deg].
      lra.
    + rewrite Hmin, Hmax. lra.
  - discriminate.
  - intros row [<- | []]. eexists. reflexivity.
  - intros _. split; [reflexivity | split; [reflexivity |]].
    intros row [<- | []]. reflexivity.
Defined.

End PathProps.

(* ====================================================================== *)
(** * Runs of the catalogue query *)
(* ====================================================================== *)

Module CatalogRun.
Import Py CatalogPipe CatalogProps.
Local Open Scope string_scope.

Lemma first_char_quote (fil0 f0 : string) (quoted : bool) :
  first_char fil0 = Ok f0 ->
  first_char (if quoted then fil0 ++ "'" else fil0) = Ok f0.
Proof.
  destruct fil0 as [| ch rest]; [discriminate |].
  destruct quoted; cbn; trivial.
Qed.

Lemma assoc_existsb {A} (path : string) (fs : list (string * A)) (v : A) :
  assoc path fs = Some v ->
  existsb (fun f => String.eqb path (fst f)) fs = true.
Proof.
  induction fs as [| [p w] fs IH]; cbn [assoc existsb fst]; [discriminate |].
  destruct (String.eqb path p); [reflexivity |]. exact IH.
Qed.

(** Without [--clobber], a field and filter whose catalogue file
    exists already is passed over: nothing is printed, no query is sent
    and the file is left as it is. *)
Theorem existing_output_is_kept
    (srv : vizier) (args : arguments) (c : center) (fil f0 : string)
    (s : run_state) (lines : list line) :
  clobber args = false ->
  first_char fil = Ok f0 ->
  read_file s (catalog_path (pathdir args) (field c) f0 (ampl c)
                 (catname args)) = Some lines ->
  process_filter srv args c fil s = (Ok tt, s).
Proof.
  intros Hclobber Hf0 Hfile. unfold process_filter.
  rewrite Hclobber. cbn [negb]. unfold bind, lift, isfile.
  rewrite (first_char_quote fil f0 _ Hf0).
  unfold read_file in Hfile.
  rewrite (assoc_existsb _ _ _ Hfile). reflexivity.
Qed.

(** The same for a directory that holds the g catalogue of the field. *)
Lemma existing_output_witness :
  process_filter (fun _ _ => []) Scenarios.example_arguments
    Scenarios.example_center "g"
    (mk_state [] [] [("catalogs_photometry/S82sub8_g_1_PS1_phot.cat", [])])
  = (Ok tt,
     mk_state [] [] [("catalogs_photometry/S82sub8_g_1_PS1_phot.cat", [])]).
Proof.
  apply (existing_output_is_kept (fun _ _ => [])
           Scenarios.example_arguments Scenarios.example_center "g" "g"
           (mk_state [] []
              [("catalogs_photometry/S82sub8_g_1_PS1_phot.cat", [])])
           []);
    reflexivity.
Defined.

(** A resolved catalogue ID always has its list of columns. *)
Lemma resolved_columns ra dec size catname fil id :
  resolve_alias catname = Some id ->
  exists cols,
    columns_select (mk_PhotoCatalog ra dec size catname fil (Some id))
    = Ok cols.
Proof.
  unfold resolve_alias, known_aliases. cbn [find fst snd].
  repeat match goal with
    | |- context [existsb ?f ?l] => destruct (existsb f l)
    end;
    cbn [option_map snd]; intros H; try discriminate;
    injection H as <-; unfold columns_select; cbn; eexists; reflexivity.
Qed.

(** X15: a catalogue object built from a recognised name is queried
    without error: [query] sends one request, for the resolved catalogue
    ID and a square box of the field size around the field centre, and
    gives [None] for an empty answer and otherwise the table filed under
    that ID (a [TypeError] when the non-empty answer has none: the
    answer refuses a name it does not hold). *)
Theorem query_after_init
    (srv : vizier) (field_center : R * R) (field_size : R)
    (catname fil id : string) (s : run_state) :
  resolve_alias catname = Some id ->
  exists self cols,
    PhotoCatalog_init field_center field_size catname fil s = (Ok self, s)
    /\ columns_select self = Ok cols
    /\ let req := mk_request cols field_center field_size field_size id in
       let t_result := srv (List.length (queries s)) req in
       query srv self s
       = (match t_result with
          | [] => Ok None
          | _ :: _ =>
              match assoc id t_result with
              | Some t => Ok (Some t)
              | None => Raise TypeError
              end
          end,
          mk_state (stdout s) (queries s ++ [req]) (files s)).
Proof.
  intros Hid.
  destruct (resolved_columns (fst field_center) (snd field_center)
              field_size catname fil id Hid) as [cols Hcols].
  set (self := mk_PhotoCatalog (fst field_center) (snd field_center)
                 field_size catname fil (Some id)) in *.
  exists self, cols.
  split; [rewrite PhotoCatalog_init_resolves, Hid; reflexivity |].
  split; [exact Hcols |].
  cbv zeta.
  rewrite (query_outcome srv self cols id s eq_refl Hcols).
  cbv zeta. unfold photo_request. cbn [field_ra field_dec boxsize].
  destruct field_center. reflexivity.
Qed.

(** X15 for the default catalogue name and an empty answer. *)
Lemma query_after_init_witness :
  exists self cols,
    PhotoCatalog_init (10%R, (-30)%R) 18%R "SM" "g" Scenarios.empty_run
    = (Ok self, Scenarios.empty_run)
    /\ columns_select self = Ok cols
    /\ query (fun _ _ => []) self Scenarios.empty_run
       = (Ok None,
          mk_state []
            [mk_request cols (10%R, (-30)%R) 18%R 18%R "II/358/smss"] []).
Proof.
  destruct (query_after_init (fun _ _ => []) (10%R, (-30)%R) 18%R "SM" "g"
              "II/358/smss" Scenarios.empty_run eq_refl)
    as (self & cols & Hinit & Hcols & Hquery).
  exists self, cols. repeat split; assumption.
Defined.

(** The first query of a run step that finds a table. *)
Lemma query_twice_found srv args c self cols id t s :
  catID self = Some id ->
  columns_select self = Ok cols ->
  (forall req, srv (List.length (queries s)) req = [(id, t)]) ->
  query_twice srv args c self s
  = (Ok (Some t),
     mk_state (stdout s) (queries s ++ [photo_request self cols id])
       (files s)).
Proof.
  intros Hid Hcols Hsrv. unfold query_twice, bind.
  rewrite (query_outcome srv self cols id s Hid Hcols). cbv zeta.
  rewrite Hsrv. cbn [assoc]. rewrite String.eqb_refl. reflexivity.
Qed.

(** X16: a catalogue that the constructor recognises but that neither of
    the driver's two renaming tests covers (Gaia, or APASS spelled in
    lower case) cannot be processed: the table keeps its own column names,
    and the step that reads the column [mag] raises a [KeyError] after the
    query, before any file is written. *)
Theorem unrenamed_catalog_has_no_mag
    (srv : vizier) (args : arguments) (c : center) (fil id : string)
    (t : table) (s : run_state) :
  clobber args = true ->
  resolve_alias (catname args) = Some id ->
  String.eqb (catname args) "APASS" || str_in "ps1" (catname args)
    || str_in "PS1" (catname args) || str_in "Pan" (catname args) = false ->
  str_in "SM" (catname args) || str_in "skymapper" (catname args)
    || str_in "SkyMapper" (catname args) = false ->
  (forall req, srv (List.length (queries s)) req = [(id, t)]) ->
  index_of "mag" (colnames t) = None ->
  exists req,
    process_filter srv args c fil s
    = (Raise (KeyError "mag"),
       mk_state (stdout s) (queries s ++ [req]) (files s)).
Proof.
  intros Hclobber Hid Hps Hsm Hsrv Hmag.
  assert (Hapass : String.eqb (catname args) "APASS" = false).
  { apply orb_false_iff in Hps. destruct Hps as [Hps _].
    apply orb_false_iff in Hps. destruct Hps as [Hps _].
    apply orb_false_iff in Hps. apply Hps. }
  destruct (resolved_columns (RAdeg c) (DECdeg c) (field_size args)
              (catname args) fil id Hid) as [cols Hcols].
  set (self := mk_PhotoCatalog (RAdeg c) (DECdeg c) (field_size args)
                 (catname args) fil (Some id)) in *.
  eexists. unfold process_filter. rewrite Hclobber, Hapass. cbn [negb].
  unfold bind at 1. unfold ret at 1. unfold bind at 1.
  rewrite PhotoCatalog_init_resolves, Hid. cbn [fst snd]. fold self.
  unfold bind at 1.
  rewrite (query_twice_found srv args c self cols id t s eq_refl Hcols Hsrv).
  unfold bind at 1. unfold lift at 1.
  unfold standard_columns. rewrite Hps, Hsm. cbn [and_then].
  unfold bind at 1. unfold select_magnitudes, bind, lift, column.
  rewrite Hmag. reflexivity.
Qed.

(** X16 for the catalogue name Gaia. *)
Lemma unrenamed_catalog_witness :
  exists req,
    process_filter (fun _ _ => [("I/345/gaia2", Scenarios.example_gaia_table)])
      (mk_arguments "Gaia" "catalogs_photometry" 18%R 5%float true false)
      Scenarios.example_center "g" Scenarios.empty_run
    = (Raise (KeyError "mag"), mk_state [] [req] []).
Proof.
  apply (unrenamed_catalog_has_no_mag
           (fun _ _ => [("I/345/gaia2", Scenarios.example_gaia_table)])
           (mk_arguments "Gaia" "catalogs_photometry" 18%R 5%float true false)
           Scenarios.example_center "g" "I/345/gaia2"
           Scenarios.example_gaia_table Scenarios.empty_run);
    reflexivity.
Defined.

(** X17: [write_file] creates the file before it reads the table: for a
    table without rows the file holds the header line alone, whatever the
    columns are; for a table with rows that lacks the column [ra] the call
    raises a [KeyError] and leaves the file behind with the header line
    alone. *)
Theorem write_file_edges
    (t : table) (pathdir fieldname filt f0 : string) (ccd : Z)
    (catname : string) (s : run_state) :
  first_char filt = Ok f0 ->
  let outfile := catalog_path pathdir fieldname filt ccd catname in
  let header :=
    Header ("#         ra         dec       " ++ f0 ++ "      d" ++ f0
              ++ newline) in
  (rows t = [] ->
   write_file t pathdir fieldname filt ccd catname s
   = (Ok tt,
      mk_state (stdout s) (queries s) ((outfile, [header]) :: files s)))
  /\ (rows t <> [] -> index_of "ra" (colnames t) = None ->
      write_file t pathdir fieldname filt ccd catname s
      = (Raise (KeyError "ra"),
         mk_state (stdout s) (queries s) ((outfile, [header]) :: files s))).
Proof.
  intros Hf0 outfile header. split.
  - intros Hrows. unfold write_file, bind, lift, open_w, write_line, modify.
    rewrite Hf0, Hrows. reflexivity.
  - intros Hrows Hra. unfold write_file, bind, lift, open_w, write_line,
      modify.
    rewrite Hf0. destruct (rows t) as [| row rest]; [congruence |].
    cbn [for_each files stdout queries]. unfold bind, write_row, bind, lift,
      row_item.
    rewrite Hra. reflexivity.
Qed.

(** X17 for a table without rows. *)
Lemma write_file_edges_witness :
  write_file (mk_table ["ra"; "dec"] []) "catalogs_photometry" "S82sub8" "g"
    1 "SM" Scenarios.empty_run
  = (Ok tt,
     mk_state [] []
       [("catalogs_photometry/S82sub8_g_1_SM_phot.cat",
         [Header ("#         ra         dec       g      dg" ++ newline)])]).
Proof.
  destruct (write_file_edges (mk_table ["ra"; "dec"] [])
              "catalogs_photometry" "S82sub8" "g" "g" 1 "SM"
              Scenarios.empty_run eq_refl) as [Hempty _].
  apply Hempty. reflexivity.
Defined.

(** X18: the SkyMapper path end to end.  With [--clobber], a catalogue
    name that resolves to SkyMapper and only passes the driver's SkyMapper
    test, a band of the driver, and a well-formed answer holding the five
    columns the query asks for: one query is sent, and the catalogue file
    of the field holds the header followed by the right ascension,
    declination, magnitude and error of the rows whose magnitude is a
    number below 30, in the order of the answer. *)
Theorem skymapper_field_is_written
    (srv : vizier) (args : arguments) (c : center) (fil : string)
    (t : table) (s : run_state) :
  clobber args = true ->
  resolve_alias (catname args) = Some "II/358/smss" ->
  String.eqb (catname args) "APASS" || str_in "ps1" (catname args)
    || str_in "PS1" (catname args) || str_in "Pan" (catname args) = false ->
  str_in "SM" (catname args) || str_in "skymapper" (catname args)
    || str_in "SkyMapper" (catname args) = true ->
  In fil ["g"; "i"] ->
  colnames t
  = ["ObjectId"; "RAICRS"; "DEICRS"; fil ++ "PSF"; "e_" ++ fil ++ "PSF"] ->
  well_formed t ->
  (forall req, srv (List.length (queries s)) req = [("II/358/smss", t)]) ->
  let survivors :=
    List.filter (fun row => kept_magnitude (nth 3 row nan)) (rows t) in
  let outfile :=
    catalog_path (pathdir args) (field c) fil (ampl c) (catname args) in
  exists s',
    process_filter srv args c fil s = (Ok tt, s')
    /\ queries s'
       = (queries s
            ++ [mk_request (colnames t) (RAdeg c, DECdeg c) (field_size args)
                  (field_size args) "II/358/smss"])%list
    /\ files s'
       = (outfile,
          Header ("#         ra         dec       " ++ fil ++ "      d"
                    ++ fil ++ newline)
            :: map (fun row =>
                      Entry (nth 1 row nan) (nth 2 row nan) (nth 3 row nan)
                        (nth 4 row nan))
                 survivors)
           :: files s.
Proof.
  intros Hclobber Hid Hps Hsm Hfil Hcols Hwf Hsrv survivors outfile.
  assert (Hapass : String.eqb (catname args) "APASS" = false).
  { apply orb_false_iff in Hps. destruct Hps as [Hps _].
    apply orb_false_iff in Hps. destruct Hps as [Hps _].
    apply orb_false_iff in Hps. apply Hps. }
  set (self := mk_PhotoCatalog (RAdeg c) (DECdeg c) (field_size args)
                 (catname args) fil (Some "II/358/smss")).
  set (std := mk_table ["ObjectId"; "ra"; "dec"; "mag"; "e_mag"] (rows t)).
  assert (Hf0 : first_char fil = Ok fil)
    by (destruct Hfil as [<- | [<- | []]]; reflexivity).
  assert (Hsel : columns_select self = Ok (colnames t)).
  { rewrite Hcols. destruct Hfil as [<- | [<- | []]]; reflexivity. }
  assert (Hren : standard_columns (catname args) fil t = Ok std).
  { unfold standard_columns. rewrite Hps, Hsm. cbn [and_then].
    unfold rename_column. rewrite Hcols.
    destruct Hfil as [<- | [<- | []]]; reflexivity. }
  assert (Hstd : well_formed std).
  { unfold well_formed in *. cbn [rows colnames std]. rewrite Hcols in Hwf.
    exact Hwf. }
  destruct (select_magnitudes_rows args c fil fil std
              (mk_state (stdout s)
                 (queries s ++ [photo_request self (colnames t)
                                  "II/358/smss"]) (files s))
              3 eq_refl Hf0) as (out & Hmags & _).
  cbn [stdout queries files] in Hmags.
  unfold process_filter. rewrite Hclobber, Hapass. cbn [negb].
  unfold bind at 1. unfold ret at 1. unfold bind at 1.
  rewrite PhotoCatalog_init_resolves, Hid. cbn [fst snd]. fold self.
  unfold bind at 1.
  rewrite (query_twice_found srv args c self (colnames t) "II/358/smss" t s
             eq_refl Hsel Hsrv).
  unfold bind at 1. unfold lift at 1. rewrite Hren.
  unfold bind at 1. rewrite Hmags.
  unfold bind at 1. unfold lift at 1. rewrite Hf0.
  unfold bind at 1.
  unfold write_file, bind, lift, open_w, write_line, modify.
  rewrite Hf0. cbn [files stdout queries rows colnames].
  rewrite (write_rows_entries (colnames std) _ 1 2 3 4 _ eq_refl eq_refl
             eq_refl eq_refl (filter_well_formed std _ Hstd)).
  cbn [app]. fold outfile. fold survivors.
  destruct (verbose args); unfold print, modify, ret;
    cbn [stdout queries files];
    eexists; (split; [reflexivity | split; reflexivity]).
Qed.

(** X18 for the default catalogue name SM and the band g. *)
Lemma skymapper_field_witness :
  exists s',
    process_filter (fun _ _ => [("II/358/smss",
                                 Scenarios.example_skymapper_table)])
      (mk_arguments "SM" "catalogs_photometry" 18%R 5%float true false)
      Scenarios.example_center "g" Scenarios.empty_run
    = (Ok tt, s')
    /\ files s'
       = [("catalogs_photometry/S82sub8_g_1_SM_phot.cat",
           [Header ("#         ra         dec       g      dg" ++ newline);
            Entry 10.5 (-30.25) 17.5 0.125])].
Proof.
  destruct (skymapper_field_is_written
              (fun _ _ => [("II/358/smss", Scenarios.example_skymapper_table)])
              (mk_arguments "SM" "catalogs_photometry" 18%R 5%float true
                 false)
              Scenarios.example_center "g" Scenarios.example_skymapper_table
              Scenarios.empty_run)
    as (s' & Hrun & _ & Hfiles);
    try reflexivity.
  - left. reflexivity.
  - repeat constructor.
  - exists s'. split; [exact Hrun | exact Hfiles].
Defined.

(** ** The report of bright objects *)

Lemma existsb_filter_map {A} (cell : A -> float) (f g : float -> bool)
    (xs : list A) :
  existsb f (List.filter g (map cell xs))
  = match List.filter (fun x => g (cell x) && f (cell x)) xs with
    | [] => false
    | _ :: _ => true
    end.
Proof.
  induction xs as [| x rest IH]; [reflexivity |].
  cbn [map List.filter]. destruct (g (cell x)); cbn [andb]; [| exact IH].
  cbn [existsb]. destruct (f (cell x)); cbn [orb]; [reflexivity | exact IH].
Qed.

(** X2: the driver reports bright objects exactly when the table holds a
    row whose magnitude is a number below the threshold: it then prints
    the warning and the table of these rows, in their order; otherwise the
    magnitude selection prints nothing. *)
Theorem bright_objects_reported
    (args : arguments) (c : center) (fil f0 : string) (t : table)
    (s : run_state) (i : nat) :
  index_of "mag" (colnames t) = Some i ->
  first_char fil = Ok f0 ->
  let bright :=
    List.filter
      (fun row => negb (is_nan (nth i row nan))
                  && PrimFloat.ltb (nth i row nan) (bright_thresh args))
      (rows t) in
  stdout (snd (select_magnitudes args c fil t s))
  = (stdout s
       ++ match bright with
          | [] => []
          | _ :: _ =>
              [PrintBright (bright_thresh args) (field c) f0 (ampl c);
               PrintTable (mk_table (colnames t) bright)]
          end)%list.
Proof.
  intros Hi Hf0 bright.
  set (cell := fun row : list float => nth i row nan).
  set (numbers := List.filter (fun row => negb (is_nan (cell row))) (rows t)).
  assert (Hrows : delete_at 0 (rows t) (nan_index (map cell (rows t)))
                  = numbers) by apply delete_nan_rows.
  assert (Hmags : delete_at 0 (map cell (rows t))
                    (nan_index (map cell (rows t)))
                  = List.filter (fun m => negb (is_nan m))
                      (map cell (rows t))).
  { pose proof (delete_nan_rows (fun m : float => m) (map cell (rows t)))
      as H.
    rewrite map_id in H. exact H. }
  assert (Hcol : column (remove_rows t (nan_index (map cell (rows t)))) "mag"
                 = Ok (map cell numbers)).
  { rewrite (column_cells _ "mag" i) by exact Hi.
    cbn [rows remove_rows]. rewrite Hrows. reflexivity. }
  assert (Hex : existsb (fun m => PrimFloat.ltb m (bright_thresh args))
                  (List.filter (fun m => negb (is_nan m))
                     (map cell (rows t)))
                = match bright with
                  | [] => false
                  | _ :: _ => true
                  end)
    by (rewrite existsb_filter_map; reflexivity).
  unfold select_magnitudes, bind, lift.
  rewrite (column_cells t "mag" i Hi). fold cell.
  rewrite Hmags, Hex.
  assert (Hbright : select_rows
                      (remove_rows t (nan_index (map cell (rows t))))
                      (map (fun m => PrimFloat.ltb m (bright_thresh args))
                         (map cell numbers))
                    = mk_table (colnames t) bright).
  { unfold select_rows, remove_rows. cbn [colnames rows].
    rewrite Hrows, map_map, select_map. unfold numbers.
    rewrite filter_filter. reflexivity. }
  destruct bright as [| row rest] eqn:Hb.
  - unfold ret. rewrite Hcol. cbn [snd stdout]. rewrite app_nil_r.
    reflexivity.
  - rewrite Hcol, Hf0, Hbright. unfold print, modify, ret.
    cbn [snd stdout queries files].
    rewrite <- app_assoc. reflexivity.
Qed.

(** X2 with the threshold 18 on a table whose first row has magnitude
    17.5. *)
Lemma bright_objects_witness :
  stdout
    (snd (select_magnitudes
            (mk_arguments "PS1" "catalogs_photometry" 18%R 18%float false
               false)
            Scenarios.example_center "g" Scenarios.example_standard_table
            Scenarios.empty_run))
  = [PrintBright 18 "S82sub8" "g" 1;
     PrintTable
       (mk_table ["ra"; "dec"; "mag"; "e_mag"]
          [[10.5; -30.25; 17.5; 0.125]%float])].
Proof.
  apply (bright_objects_reported
           (mk_arguments "PS1" "catalogs_photometry" 18%R 18%float false
              false)
           Scenarios.example_center "g" "g" Scenarios.example_standard_table
           Scenarios.empty_run 2);
    reflexivity.
Defined.

(** ** Running again *)

(** X3: without [--clobber], a run over an output directory that already
    holds the g and the i catalogue of every field does nothing: it ends
    normally without printing, querying or writing. *)
Theorem complete_output_is_left_alone
    (srv : vizier) (args : arguments) (t_centers : list center)
    (s : run_state) :
  clobber args = false ->
  (forall c b, In c t_centers -> In b ["g"; "i"] ->
               exists lines,
                 read_file s (catalog_path (pathdir args) (field c) b
                                (ampl c) (catname args)) = Some lines) ->
  main srv args t_centers s = (Ok tt, s).
Proof.
  intros Hclobber Hall. unfold main.
  induction t_centers as [| c rest IH]; [reflexivity |].
  cbn [for_each]. unfold bind at 1. unfold bind at 1.
  destruct (Hall c "g") as [lg Hg]; [left; reflexivity | left; reflexivity |].
  destruct (Hall c "i") as [li Hi];
    [left; reflexivity | right; left; reflexivity |].
  rewrite (existing_output_is_kept srv args c "g" "g" s lg Hclobber eq_refl
             Hg).
  unfold bind at 1.
  rewrite (existing_output_is_kept srv args c "i" "i" s li Hclobber eq_refl
             Hi).
  apply IH. intros c' b Hc' Hb. apply Hall; [right; exact Hc' | exact Hb].
Qed.

(** X3 for one field whose two catalogues exist. *)
Lemma complete_output_witness :
  main (fun _ _ => []) Scenarios.example_arguments [Scenarios.example_center]
    (mk_state [] []
       [("catalogs_photometry/S82sub8_g_1_PS1_phot.cat", []);
        ("catalogs_photometry/S82sub8_i_1_PS1_phot.cat", [])])
  = (Ok tt,
     mk_state [] []
       [("catalogs_photometry/S82sub8_g_1_PS1_phot.cat", []);
        ("catalogs_photometry/S82sub8_i_1_PS1_phot.cat", [])]).
Proof.
  apply (complete_output_is_left_alone (fun _ _ => [])
           Scenarios.example_arguments [Scenarios.example_center]).
  - reflexivity.
  - intros c b [<- | []] [<- | [<- | []]]; eexists; reflexivity.
Defined.

End CatalogRun.

(* ====================================================================== *)
(** * Whole runs of the target-list drivers *)
(* ====================================================================== *)

Module TargetRun.
Import Py TargetDrivers TargetProps.
Local Open Scope string_scope.

Lemma requests_sent_app (s1 s2 : run_state) :
  requests_sent (s1 ++ s2)%list
  = (requests_sent s1 + requests_sent s2)%nat.
Proof. unfold requests_sent. rewrite filter_app, length_app. reflexivity. Qed.

(** A step of the Legacy Survey driver whose query is answered. *)
Lemma step_ls_answered srv r s text :
  qc_query srv (requests_sent s) (ls_request r) = Ok text ->
  step_ls srv r s
  = (Ok tt,
     (s ++ [Printed (querying (objectName r)); Requested (ls_request r);
            Wrote (outfile_ls (objectName r)) text])%list).
Proof.
  intros Hq. unfold step_ls, query_coords_ls, bind, emit, modify, lift.
  fold (ls_request r).
  rewrite requests_sent_app. cbn [requests_sent List.filter is_request
                                    List.length].
  rewrite Nat.add_0_r, Hq. rewrite <- !app_assoc. reflexivity.
Qed.

(** A step of the quasar driver whose query finds a table. *)
Lemma step_milliquas_answered srv r s first others :
  vizier_query_region srv (requests_sent s) (milliquas_request r)
  = first :: others ->
  step_milliquas srv r s
  = (Ok tt,
     (s ++ [Printed (querying (objectName r)); Requested (milliquas_request r);
            Wrote (outfile_milliquas (objectName r)) first])%list).
Proof.
  intros Hq. unfold step_milliquas, query_vizier, bind, emit, modify, lift.
  fold (milliquas_request r).
  rewrite requests_sent_app. cbn [requests_sent List.filter is_request
                                    List.length].
  rewrite Nat.add_0_r, Hq. cbn [list_get nth_error].
  rewrite <- !app_assoc. reflexivity.
Qed.

Lemma requests_sent_step (s : run_state) x req f text :
  requests_sent (s ++ [Printed x; Requested req; Wrote f text])%list
  = S (requests_sent s).
Proof. rewrite requests_sent_app. cbn. lia. Qed.

(** A loop whose every step is answered leaves the expected events. *)
Lemma for_each_answered (step : target -> M run_state unit)
    (request : target -> cone_request) (outfile : string -> string)
    (answer : nat -> cone_request -> string) (handled : list target) :
  (forall r s,
      step r s
      = (Ok tt,
         (s ++ [Printed (querying (objectName r)); Requested (request r);
                Wrote (outfile (objectName r))
                  (answer (requests_sent s) (request r))])%list)) ->
  forall s,
    for_each handled step s
    = (Ok tt,
       (s ++ expected_events request outfile answer (requests_sent s)
               handled)%list).
Proof.
  intros Hstep. induction handled as [| r rest IH]; intros s.
  - cbn [for_each expected_events]. rewrite app_nil_r. reflexivity.
  - cbn [for_each expected_events]. unfold bind. rewrite Hstep, IH.
    rewrite requests_sent_step, <- app_assoc. reflexivity.
Qed.

(** X19: when Data Lab answers every query, the Legacy Survey driver ends
    normally and its trace is, for the first row of every object name in
    the order of the list: the line "Querying <name>", the cone request at
    the row's coordinates with radius 1.2 on ls_dr10, and the write of the
    answer to ls/<name>_ls_query_rad1.2.csv; nothing else happens. *)
Theorem ls_run_when_answered (srv : services) (t : list target) :
  (forall n req, exists text, qc_query srv n req = Ok text) ->
  main_ls srv t []
  = (Ok tt,
     expected_events ls_request outfile_ls (ls_answer srv) 0 (first_rows t)).
Proof.
  intros Hsrv. unfold main_ls, first_rows.
  rewrite (iterate_first_rows_from (step_ls srv) t [] [] [])
    by reflexivity.
  rewrite (for_each_answered (step_ls srv) ls_request outfile_ls
             (ls_answer srv)).
  - reflexivity.
  - intros r s. unfold ls_answer.
    destruct (Hsrv (requests_sent s) (ls_request r)) as [text Htext].
    rewrite Htext. apply step_ls_answered, Htext.
Qed.

(** X19 on three rows, two of them for the same object. *)
Lemma ls_run_witness :
  main_ls Scenarios.answering_services Scenarios.example_targets []
  = (Ok tt,
     [Printed "Querying GW190814";
      Requested (mk_cone "ls_dr10" 12 (-25) radius_deg);
      Wrote "ls/GW190814_ls_query_rad1.2.csv" "objid,ra,dec";
      Printed "Querying S200224ca";
      Requested (mk_cone "ls_dr10" 175 (-9) radius_deg);
      Wrote "ls/S200224ca_ls_query_rad1.2.csv" "objid,ra,dec"]).
Proof.
  apply (ls_run_when_answered Scenarios.answering_services
           Scenarios.example_targets).
  intros n req. exists "objid,ra,dec". reflexivity.
Defined.

(** X20: when Vizier finds a table for every query, the quasar driver ends
    normally and its trace is, for the first row of every object name in
    the order of the list: the line "Querying <name>", the cone request at
    the row's coordinates with radius 1.2 on VII/294, and the write of the
    first table of the answer to
    milliquas/<name>_milliquas_query_rad1.2.csv. *)
Theorem milliquas_run_when_answered (srv : services) (t : list target) :
  (forall n req, vizier_query_region srv n req <> []) ->
  main_milliquas srv t []
  = (Ok tt,
     expected_events milliquas_request outfile_milliquas
       (milliquas_answer srv) 0 (first_rows t)).
Proof.
  intros Hsrv. unfold main_milliquas, first_rows.
  rewrite (iterate_first_rows_from (step_milliquas srv) t [] [] [])
    by reflexivity.
  rewrite (for_each_answered (step_milliquas srv) milliquas_request
             outfile_milliquas (milliquas_answer srv)).
  - reflexivity.
  - intros r s. unfold milliquas_answer.
    pose proof (Hsrv (requests_sent s) (milliquas_request r)) as Hne.
    destruct (vizier_query_region srv (requests_sent s) (milliquas_request r))
      as [| first others] eqn:Hq; [congruence |].
    apply (step_milliquas_answered srv r s first others Hq).
Qed.

(** X20 on three rows, two of them for the same object. *)
Lemma milliquas_run_witness :
  main_milliquas Scenarios.answering_services Scenarios.example_targets []
  = (Ok tt,
     [Printed "Querying GW190814";
      Requested (mk_cone "VII/294" 12 (-25) radius_deg);
      Wrote "milliquas/GW190814_milliquas_query_rad1.2.csv"
        "recno,RAJ2000,DEJ2000";
      Printed "Querying S200224ca";
      Requested (mk_cone "VII/294" 175 (-9) radius_deg);
      Wrote "milliquas/S200224ca_milliquas_query_rad1.2.csv"
        "recno,RAJ2000,DEJ2000"]).
Proof.
  apply (milliquas_run_when_answered Scenarios.answering_services
           Scenarios.example_targets).
  intros n req. discriminate.
Defined.

(** A loop whose steps are answered row by row leaves the expected
    events: the [k]-th row handled sends request number [n + k]. *)
Lemma for_each_answered_rows (step : target -> M run_state unit)
    (request : target -> cone_request) (outfile : string -> string)
    (answer : nat -> cone_request -> string) (handled : list target) :
  forall n,
    (forall k r s,
        nth_error handled k = Some r ->
        requests_sent s = (n + k)%nat ->
        step r s
        = (Ok tt,
           (s ++ [Printed (querying (objectName r)); Requested (request r);
                  Wrote (outfile (objectName r))
                    (answer (n + k)%nat (request r))])%list)) ->
    forall s,
      requests_sent s = n ->
      for_each handled step s
      = (Ok tt,
         (s ++ expected_events request outfile answer n handled)%list).
Proof.
  induction handled as [| r rest IH]; intros n Hstep s Hn.
  - cbn [for_each expected_events]. rewrite app_nil_r. reflexivity.
  - cbn [for_each expected_events]. unfold bind.
    rewrite (Hstep 0%nat r s eq_refl) by (rewrite Nat.add_0_r; exact Hn).
    rewrite Nat.add_0_r.
    rewrite (IH (S n)).
    + rewrite <- app_assoc. reflexivity.
    + intros k r' s' Hk Hs'.
      replace (S n + k)%nat with (n + S k)%nat by lia.
      apply Hstep; [exact Hk | lia].
    + rewrite requests_sent_step, Hn. reflexivity.
Qed.

(** A loop over [xs ++ ys] whose part over [xs] ends normally goes on
    with [ys] from the state reached. *)
Lemma for_each_app_ok {A} (xs ys : list A) (body : A -> M run_state unit)
    (s s1 : run_state) :
  for_each xs body s = (Ok tt, s1) ->
  for_each (xs ++ ys) body s = for_each ys body s1.
Proof.
  revert s. induction xs as [| x xs IH]; intros s.
  - cbn [for_each app]. unfold ret. intros H. injection H as <-.
    reflexivity.
  - cbn [for_each app]. unfold bind.
    destruct (body x s) as [[[] | e] s2]; [| discriminate].
    apply IH.
Qed.

(** The requests sent by a run without failure: one per row handled. *)
Lemma requests_sent_expected request outfile answer (handled : list target) :
  forall n,
    requests_sent (expected_events request outfile answer n handled)
    = List.length handled.
Proof.
  induction handled as [| r rest IH]; intros n; [reflexivity |].
  cbn [expected_events List.length].
  change (Printed (querying (objectName r))
            :: Requested (request r)
            :: Wrote (outfile (objectName r)) (answer n (request r))
            :: expected_events request outfile answer (S n) rest)
    with ([Printed (querying (objectName r)); Requested (request r);
           Wrote (outfile (objectName r)) (answer n (request r))]
            ++ expected_events request outfile answer (S n) rest)%list.
  rewrite requests_sent_app, IH. reflexivity.
Qed.

(** A step of the quasar driver whose query finds no table. *)
Lemma step_milliquas_unanswered srv r s :
  vizier_query_region srv (requests_sent s) (milliquas_request r) = [] ->
  step_milliquas srv r s
  = (Raise IndexError,
     (s ++ [Printed (querying (objectName r));
            Requested (milliquas_request r)])%list).
Proof.
  intros Hq. unfold step_milliquas, query_vizier, bind, emit, modify, lift.
  fold (milliquas_request r).
  rewrite requests_sent_app. cbn [requests_sent List.filter is_request
                                    List.length].
  rewrite Nat.add_0_r, Hq. cbn [list_get nth_error].
  rewrite <- !app_assoc. reflexivity.
Qed.

(** A step of the Legacy Survey driver whose query fails. *)
Lemma step_ls_unanswered srv r s e :
  qc_query srv (requests_sent s) (ls_request r) = Raise e ->
  step_ls srv r s
  = (Raise e,
     (s ++ [Printed (querying (objectName r)); Requested (ls_request r)])%list).
Proof.
  intros Hq. unfold step_ls, query_coords_ls, bind, emit, modify, lift.
  fold (ls_request r).
  rewrite requests_sent_app. cbn [requests_sent List.filter is_request
                                    List.length].
  rewrite Nat.add_0_r, Hq. rewrite <- !app_assoc. reflexivity.
Qed.

(** A run over [pre ++ r :: post], where the name of [r] does not occur
    in [pre], whose steps for the first rows of [pre] are answered and
    whose step for [r] raises [e] after the announcement and the
    request. *)
Lemma iterate_stops_at (step : target -> M run_state unit)
    (request : target -> cone_request) (outfile : string -> string)
    (answer : nat -> cone_request -> string)
    (pre : list target) (r : target) (post : list target) (e : exn) :
  in_list (objectName r) (map objectName pre) = false ->
  (forall k r' s,
      nth_error (first_rows pre) k = Some r' ->
      requests_sent s = k ->
      step r' s
      = (Ok tt,
         (s ++ [Printed (querying (objectName r')); Requested (request r');
                Wrote (outfile (objectName r'))
                  (answer k (request r'))])%list)) ->
  (forall s,
      requests_sent s = List.length (first_rows pre) ->
      step r s
      = (Raise e,
         (s ++ [Printed (querying (objectName r));
                Requested (request r)])%list)) ->
  iterate step [] (pre ++ r :: post) []
  = (Raise e,
     (expected_events request outfile answer 0 (first_rows pre)
        ++ [Printed (querying (objectName r)); Requested (request r)])%list).
Proof.
  intros Hfresh Hpre Hr.
  rewrite (iterate_first_rows_from step (pre ++ r :: post) [] [] [])
    by reflexivity.
  rewrite first_rows_from_app. cbn [app]. rewrite Hfresh.
  fold (first_rows pre).
  rewrite (for_each_app_ok (first_rows pre) _ step []
             (expected_events request outfile answer 0 (first_rows pre))).
  - cbn [app for_each]. unfold bind. rewrite Hr; [reflexivity |].
    apply requests_sent_expected.
  - rewrite (for_each_answered_rows step request outfile answer
               (first_rows pre) 0); [reflexivity | | reflexivity].
    intros k r' s Hk Hs. cbn [Nat.add] in *. apply Hpre; assumption.
Qed.

(** X21: a query without result ends the run of either driver at that
    row, wherever the row stands in the list.  Let the target list be
    [pre ++ r :: post], the name of [r] not occurring in [pre], and let
    the queries for the first rows of [pre] be answered.  When Vizier's
    answer for [r] holds no table the quasar driver raises an
    [IndexError]; when Data Lab answers the query for [r] with an error
    the Legacy Survey driver passes it on.  In both cases the trace is
    that of the rows of [pre], each with its file, followed by the
    announcement and the request for [r]: no file is written for [r], and
    no row of [post] is handled. *)
Theorem unanswered_query_ends_run
    (srv : services) (pre : list target) (r : target) (post : list target)
    (e : exn) :
  in_list (objectName r) (map objectName pre) = false ->
  ((forall k r', nth_error (first_rows pre) k = Some r' ->
                 vizier_query_region srv k (milliquas_request r') <> []) ->
   vizier_query_region srv (List.length (first_rows pre))
     (milliquas_request r) = [] ->
   main_milliquas srv (pre ++ r :: post) []
   = (Raise IndexError,
      (expected_events milliquas_request outfile_milliquas
         (milliquas_answer srv) 0 (first_rows pre)
         ++ [Printed (querying (objectName r));
             Requested (milliquas_request r)])%list))
  /\ ((forall k r', nth_error (first_rows pre) k = Some r' ->
                    exists text, qc_query srv k (ls_request r') = Ok text) ->
      qc_query srv (List.length (first_rows pre)) (ls_request r) = Raise e ->
      main_ls srv (pre ++ r :: post) []
      = (Raise e,
         (expected_events ls_request outfile_ls (ls_answer srv) 0
            (first_rows pre)
            ++ [Printed (querying (objectName r));
                Requested (ls_request r)])%list)).
Proof.
  intros Hfresh. split; intros Hpre Hq.
  - unfold main_milliquas. apply iterate_stops_at.
    + exact Hfresh.
    + intros k r' s Hk Hs. unfold milliquas_answer.
      pose proof (Hpre k r' Hk) as Hne.
      destruct (vizier_query_region srv k (milliquas_request r'))
        as [| first others] eqn:Hans; [congruence |].
      apply (step_milliquas_answered srv r' s first others).
      rewrite Hs. exact Hans.
    + intros s Hs. apply step_milliquas_unanswered. rewrite Hs. exact Hq.
  - unfold main_ls. apply iterate_stops_at.
    + exact Hfresh.
    + intros k r' s Hk Hs. unfold ls_answer.
      destruct (Hpre k r' Hk) as [text Htext]. rewrite Htext.
      apply step_ls_answered. rewrite Hs. exact Htext.
    + intros s Hs. apply step_ls_unanswered. rewrite Hs. exact Hq.
Qed.

(** X21 on three rows, for services that answer the first query only:
    the run ends at the second row, after the file of the first. *)
Lemma unanswered_query_witness :
  main_milliquas Scenarios.tiring_services Scenarios.example_targets []
  = (Raise IndexError,
     [Printed "Querying GW190814";
      Requested (mk_cone "VII/294" 12 (-25) radius_deg);
      Wrote "milliquas/GW190814_milliquas_query_rad1.2.csv"
        "recno,RAJ2000,DEJ2000";
      Printed "Querying S200224ca";
      Requested (mk_cone "VII/294" 175 (-9) radius_deg)])
  /\ main_ls Scenarios.tiring_services Scenarios.example_targets []
     = (Raise (QueryClientError "no such table"),
        [Printed "Querying GW190814";
         Requested (mk_cone "ls_dr10" 12 (-25) radius_deg);
         Wrote "ls/GW190814_ls_query_rad1.2.csv" "objid,ra,dec";
         Printed "Querying S200224ca";
         Requested (mk_cone "ls_dr10" 175 (-9) radius_deg)]).
Proof.
  destruct (unanswered_query_ends_run Scenarios.tiring_services
              [mk_target "GW190814" 12 (-25)]
              (mk_target "S200224ca" 175 (-9))
              [mk_target "GW190814" 13 (-24)]
              (QueryClientError "no such table") eq_refl) as [Hm Hl].
  split.
  - apply Hm; [| reflexivity].
    intros [| k] r' Hk; [discriminate | destruct k; discriminate].
  - apply Hl; [| reflexivity].
    intros [| k] r' Hk;
      [exists "objid,ra,dec"; reflexivity | destruct k; discriminate].
Defined.

End TargetRun.
